(** * The CV chatbot of [1_foundations/Carbaz/app.py]

    A shallow embedding of the module: the two tool handlers and the
    notifier they share, the dispatcher [Me.handle_tool_call], the prompt
    builder [Me.system_prompt] and the tool-resolution loop [Me.chat].

    Everything the module reaches through an imported library (the Pushover
    transport, the completion API, [json.loads], [os.getenv], the built-in
    [repr]) is a field of the [Runtime] class; the code of the module itself
    is translated function by function and runs in a small state-and-exception
    monad over a [world] that records what left the process. *)

From stdpp Require Import base option list strings gmap pretty.
From Stdlib Require Import ZArith Ascii Lia.

Set Warnings "-register-all".

(** ** Python values *)

(** The values that [json.loads] can produce, plus [VObject] for objects that
    are not JSON data (a [requests.Response], an instance of [Me], ...).
    A [str] is a Rocq string whose characters are code points below 256; a
    [float] is carried by its [repr], which is what both [str()] and
    [json.dumps] print. A [dict] keeps its insertion order. *)
Inductive pyval : Type :=
| VNone
| VBool (b : bool)
| VInt (z : Z)
| VFloat (repr : string)
| VStr (s : string)
| VList (items : list pyval)
| VDict (items : list (string * pyval))
| VObject (type_name : string).

Abbreviation kwargs := (list (string * pyval)).

(** Exceptions that can cross the module's code. [External] stands for any
    exception raised inside an imported library (a connection error of
    [requests], an API error of the [openai] client, ...). *)
Inductive exn : Type :=
| TypeError (what : string)
| JSONDecodeError
| IndexError
| External (what : string).

(** The double quote, the line feed, and the line feed followed by the
    twelve spaces that indent the prompt's lines in the source. *)
Definition dq : string := String (ascii_of_nat 34) EmptyString.
Definition lf : string := String (ascii_of_nat 10) EmptyString.
Definition nl : string := lf +:+ "            ".

(** Truth value of a Python object, as tested by [if tool]. *)
Definition py_truth (v : pyval) : bool :=
  match v with
  | VNone => false
  | VBool b => b
  | VInt z => negb (Z.eqb z 0)
  | VFloat r => negb (String.eqb r "0.0" || String.eqb r "-0.0")
  | VStr s => negb (String.eqb s EmptyString)
  | VList l => match l with [] => false | _ => true end
  | VDict d => match d with [] => false | _ => true end
  | VObject _ => true
  end.

(** *** [json.dumps] with its default arguments *)

Definition hex_digit (n : N) : ascii :=
  if (n <? 10)%N then ascii_of_N (48 + n) else ascii_of_N (87 + n).

(** ['\\u{0:04x}'.format(n)] for a code point below 256. *)
Definition u_escape (c : ascii) : string :=
  let n := N_of_ascii c in
  String "\" (String "u" (String "0" (String "0"
    (String (hex_digit (n / 16)) (String (hex_digit (n mod 16)) EmptyString))))).

(** One character of [py_encode_basestring_ascii]: the table [ESCAPE_DCT]
    first, then everything outside [' '..'~'] as a [\u] escape. *)
Definition escape_char (c : ascii) : string :=
  let n := N_of_ascii c in
  if (n =? 92)%N then "\\"
  else if (n =? 34)%N then String "\" dq
  else if (n =? 8)%N then "\b"
  else if (n =? 12)%N then "\f"
  else if (n =? 10)%N then "\n"
  else if (n =? 13)%N then "\r"
  else if (n =? 9)%N then "\t"
  else if ((32 <=? n) && (n <=? 126))%N then String c EmptyString
  else u_escape c.

Fixpoint escape_string (s : string) : string :=
  match s with
  | EmptyString => EmptyString
  | String c r => escape_char c +:+ escape_string r
  end.

Definition encode_basestring_ascii (s : string) : string :=
  dq +:+ escape_string s +:+ dq.

(** [', '.join(parts)] *)
Fixpoint join_comma (parts : list string) : string :=
  match parts with
  | [] => EmptyString
  | [p] => p
  | p :: rest => p +:+ ", " +:+ join_comma rest
  end.

Definition dumps_float (r : string) : string :=
  if String.eqb r "nan" then "NaN"
  else if String.eqb r "inf" then "Infinity"
  else if String.eqb r "-inf" then "-Infinity"
  else r.

(** [None] is the [TypeError] of an object that is not JSON serializable. *)
Fixpoint json_dumps (v : pyval) : option string :=
  match v with
  | VNone => Some "null"
  | VBool true => Some "true"
  | VBool false => Some "false"
  | VInt z => Some (pretty z)
  | VFloat r => Some (dumps_float r)
  | VStr s => Some (encode_basestring_ascii s)
  | VList l =>
      let fix items (l : list pyval) : option (list string) :=
        match l with
        | [] => Some []
        | x :: r =>
            match json_dumps x, items r with
            | Some a, Some b => Some (a :: b)
            | _, _ => None
            end
        end in
      match items l with
      | Some parts => Some ("[" +:+ join_comma parts +:+ "]")
      | None => None
      end
  | VDict d =>
      let fix items (d : list (string * pyval)) : option (list string) :=
        match d with
        | [] => Some []
        | (k, x) :: r =>
            match json_dumps x, items r with
            | Some a, Some b => Some ((encode_basestring_ascii k +:+ ": " +:+ a) :: b)
            | _, _ => None
            end
        end in
      match items d with
      | Some parts => Some ("{" +:+ join_comma parts +:+ "}")
      | None => None
      end
  | VObject _ => None
  end.

(** [format(v, '')] inside an f-string: a [str] is inserted as it is, any
    other value through [str()], which for JSON data is the built-in [repr]
    (passed in). *)
Definition py_format (py_repr : pyval -> string) (v : pyval) : string :=
  match v with
  | VStr s => s
  | _ => py_repr v
  end.

(** ** Objects of the conversation *)

(** [tool_call.function] and [tool_call] of the completion API. *)
Record function_call := { fn_name : string; fn_arguments : string }.
Record tool_call := { tc_id : string; tc_function : function_call }.

(** [response.choices[i].message]: the text and the requested invocations,
    both optional in the API. *)
Record chat_message := { content : option string; tool_calls : option (list tool_call) }.
Record choice := { finish_reason : string; message : chat_message }.

(** An element of [messages]: a dict literal of the module (or of the
    caller's history), or the assistant's message object appended as is. *)
Inductive msg : Type :=
| MDict (d : kwargs)
| MObject (m : chat_message).

(** The keyword arguments of [completions.create]. *)
Record completion_request :=
  { req_model : string; req_messages : list msg; req_tools : pyval }.

Inductive api_outcome : Type :=
| ApiResponse (choices : list choice)
| ApiRaise (e : exn).

(** The call [post(url, data=...)] of [push]. *)
Record post_request := { url : string; data : kwargs }.

(** What [requests.post] does: it returns a response whatever the HTTP
    status is, or raises (no connection, time-out, ...). *)
Inductive post_outcome : Type :=
| Responded (status : nat)
| PostRaise (e : exn).

(** What has left the process so far, oldest first. *)
Record world := {
  outbox : list post_request;          (* notifications handed to the transport *)
  stdout : list string;                (* lines printed *)
  requests : list completion_request;  (* completion requests issued *)
  imported_calls : list (string * kwargs) (* imported callables invoked by name *)
}.

Definition log_post (r : post_request) (w : world) : world :=
  {| outbox := outbox w ++ [r]; stdout := stdout w;
     requests := requests w; imported_calls := imported_calls w |}.
Definition log_print (line : string) (w : world) : world :=
  {| outbox := outbox w; stdout := stdout w ++ [line];
     requests := requests w; imported_calls := imported_calls w |}.
Definition log_request (r : completion_request) (w : world) : world :=
  {| outbox := outbox w; stdout := stdout w;
     requests := requests w ++ [r]; imported_calls := imported_calls w |}.
Definition log_imported (c : string * kwargs) (w : world) : world :=
  {| outbox := outbox w; stdout := stdout w;
     requests := requests w; imported_calls := imported_calls w ++ [c] |}.

(** ** The monad of the module's code: state [world], exceptions [exn] *)

Inductive outcome (A : Type) : Type :=
| Ret (a : A)
| Raise (e : exn).
Arguments Ret {A} a.
Arguments Raise {A} e.

Definition M (A : Type) : Type := world -> outcome A * world.

Definition ret {A} (a : A) : M A := fun w => (Ret a, w).
Definition raise {A} (e : exn) : M A := fun w => (Raise e, w).
Definition bind {A B} (c : M A) (k : A -> M B) : M B :=
  fun w => match c w with
           | (Ret a, w') => k a w'
           | (Raise e, w') => (Raise e, w')
           end.

Notation "x <~ c ;; k" := (bind c (fun x => k))
  (at level 100, c at next level, right associativity).
Notation "c ;;; k" := (bind c (fun _ => k))
  (at level 100, right associativity).

(** ** Module-level objects *)

Inductive func : Type := Fpush | Frecord_user_details | Frecord_unknown_question.

(** What a global name of the module can be bound to. *)
Inductive gobj : Type :=
| GModule (name : string)    (* [import json], [import os] *)
| GImported (name : string)  (* [from lib import name]: a callable of a library *)
| GFunction (f : func)       (* a [def] of this module *)
| GClassMe                   (* [class Me] *)
| GValue (v : pyval).        (* data *)

Definition truthy (g : gobj) : bool :=
  match g with
  | GValue v => py_truth v
  | _ => true
  end.

(** The tool schemas, as the dict literals of the source. *)
Definition record_user_details_json : pyval :=
  VDict [
    ("name", VStr "record_user_details");
    ("description", VStr ("Use this tool to record that a user is interested in being"
                          +:+ " in touch and provided an email address"));
    ("parameters", VDict [
      ("type", VStr "object");
      ("properties", VDict [
        ("email", VDict [("type", VStr "string");
                         ("description", VStr "The email address of this user")]);
        ("name", VDict [("type", VStr "string");
                        ("description", VStr "The user's name, if they provided it")]);
        ("notes", VDict [("type", VStr "string");
                         ("description", VStr ("Any additional information about the conversation"
                                               +:+ " that's worth recording to give context"))])]);
      ("required", VList [VStr "email"]);
      ("additionalProperties", VBool false)])].

Definition record_unknown_question_json : pyval :=
  VDict [
    ("name", VStr "record_unknown_question");
    ("description", VStr ("Always use this tool to record any question that couldn't be"
                          +:+ " answered as you didn't know the answer"));
    ("parameters", VDict [
      ("type", VStr "object");
      ("properties", VDict [
        ("question", VDict [("type", VStr "string");
                            ("description", VStr "The question that couldn't be answered")])]);
      ("required", VList [VStr "question"]);
      ("additionalProperties", VBool false)])].

Definition tools : pyval :=
  VList [VDict [("type", VStr "function"); ("function", record_user_details_json)];
         VDict [("type", VStr "function"); ("function", record_unknown_question_json)]].

(** Lookup of a key in a dict, and the names the registry [tools] declares. *)
Fixpoint kw_get (k : string) (kw : kwargs) : option pyval :=
  match kw with
  | [] => None
  | (k', v) :: rest => if String.eqb k' k then Some v else kw_get k rest
  end.

Definition schema_name (entry : pyval) : option string :=
  match entry with
  | VDict d =>
      match kw_get "function" d with
      | Some (VDict f) =>
          match kw_get "name" f with
          | Some (VStr n) => Some n
          | _ => None
          end
      | _ => None
      end
  | _ => None
  end.

Definition registry_names : list string :=
  match tools with
  | VList entries => omap schema_name entries
  | _ => []
  end.

Definition in_registry (tool_name : string) : bool :=
  bool_decide (tool_name ∈ registry_names).

(** ** What the imported libraries and the interpreter do *)

Class Runtime := {
  (** [os.getenv] *)
  getenv : string -> option string;
  (** [requests.post], given what has happened so far *)
  post : world -> post_request -> post_outcome;
  (** [self.openai.chat.completions.create], given what has happened so far *)
  completions_create : world -> completion_request -> api_outcome;
  (** [json.loads]; [None] is its [JSONDecodeError] *)
  json_loads : string -> option pyval;
  (** the built-in [repr] *)
  py_repr : pyval -> string;
  (** a call, by keyword arguments, of a callable that an imported library
      defines ([load_dotenv], [post], [OpenAI], ...) *)
  imported : world -> string -> kwargs -> outcome pyval;
  (** the globals the interpreter binds before the module's first statement
      ([__name__], [__spec__], [__builtins__], ...) *)
  interpreter_globals : list (string * gobj)
}.

(** The persona held by an instance of [Me] ([self.openai] is the
    [completions_create] of the runtime). *)
Record Me := { name : string; linkedin : string; summary : string }.

Section App.
Context {R : Runtime}.

(** *** The notifier and the two handlers *)

Definition getenv_val (k : string) : pyval :=
  match getenv k with
  | Some s => VStr s
  | None => VNone
  end.

(** The arguments [push] passes to [post]. *)
Definition push_request (text : pyval) : post_request :=
  {| url := "https://api.pushover.net/1/messages.json";
     data := [("user", getenv_val "PUSHOVER_USER");
              ("token", getenv_val "PUSHOVER_TOKEN");
              ("message", text)] |}.

Definition push (text : pyval) : M pyval :=
  fun w =>
    let r := push_request text in
    match post w r with
    | Responded _ => (Ret VNone, log_post r w)
    | PostRaise e => (Raise e, log_post r w)
    end.

Definition recorded_ok : pyval := VDict [("recorded", VStr "ok")].

(** The f-string of [record_user_details]. *)
Definition details_text (email name notes : pyval) : string :=
  "Recording " +:+ py_format py_repr name +:+ " with email "
  +:+ py_format py_repr email +:+ " and notes " +:+ py_format py_repr notes.

Definition record_user_details (email name notes : pyval) : M pyval :=
  push (VStr (details_text email name notes)) ;;;
  ret recorded_ok.

(** The f-string of [record_unknown_question]. *)
Definition question_text (question : pyval) : string :=
  "Recording " +:+ py_format py_repr question.

Definition record_unknown_question (question : pyval) : M pyval :=
  push (VStr (question_text question)) ;;;
  ret recorded_ok.

(** *** Calling a function with [**arguments] *)

(** Every keyword must name a parameter and every parameter without a
    default must be given; otherwise the call raises [TypeError]. *)
Definition accepts (params required : list string) (kw : kwargs) : bool :=
  forallb (fun p => bool_decide (p.1 ∈ params)) kw
  && forallb (fun r => bool_decide (is_Some (kw_get r kw))) required.

Definition arg (k : string) (dflt : pyval) (kw : kwargs) : pyval :=
  default dflt (kw_get k kw).

Definition bad_call {A} : M A := raise (TypeError "arguments do not match the signature").

Definition call_function (f : func) (kw : kwargs) : M pyval :=
  match f with
  | Fpush =>
      if accepts ["text"] ["text"] kw then push (arg "text" VNone kw) else bad_call
  | Frecord_user_details =>
      if accepts ["email"; "name"; "notes"] ["email"] kw
      then record_user_details (arg "email" VNone kw)
                               (arg "name" (VStr "Name not provided") kw)
                               (arg "notes" (VStr "not provided") kw)
      else bad_call
  | Frecord_unknown_question =>
      if accepts ["question"] ["question"] kw
      then record_unknown_question (arg "question" VNone kw)
      else bad_call
  end.

Definition call_imported (callee : string) (kw : kwargs) : M pyval :=
  fun w => (imported w callee kw, log_imported (callee, kw) w).

(** Calling [tool] with [**arguments]: [arguments] must be a mapping; a
    module or a piece of data is not callable; [Me(...)] runs [__init__],
    which is made of library calls, and yields an instance. *)
Definition call (tool : gobj) (arguments : pyval) : M pyval :=
  match arguments with
  | VDict kw =>
      match tool with
      | GModule _ => raise (TypeError "'module' object is not callable")
      | GValue _ => raise (TypeError "object is not callable")
      | GImported callee => call_imported callee kw
      | GFunction f => call_function f kw
      | GClassMe =>
          if accepts ["name"; "cv_pdf_path"; "summary_path"]
                     ["name"; "cv_pdf_path"; "summary_path"] kw
          then call_imported "Me.__init__" kw ;;; ret (VObject "Me")
          else bad_call
      end
  | _ => raise (TypeError "argument after ** must be a mapping")
  end.

(** *** The module's global symbol table *)

(** The bindings made by the module's statements, in execution order. *)
Definition source_bindings : list (string * gobj) :=
  [("__doc__", GValue (VStr "Interactive AI Resume and CV chatbot.."));
   ("json", GModule "json");
   ("os", GModule "os");
   ("load_dotenv", GImported "load_dotenv");
   ("ChatInterface", GImported "ChatInterface");
   ("OpenAI", GImported "OpenAI");
   ("PdfReader", GImported "PdfReader");
   ("post", GImported "post");
   ("push", GFunction Fpush);
   ("record_user_details", GFunction Frecord_user_details);
   ("record_unknown_question", GFunction Frecord_unknown_question);
   ("record_user_details_json", GValue record_user_details_json);
   ("record_unknown_question_json", GValue record_unknown_question_json);
   ("tools", GValue tools);
   ("Me", GClassMe)].

(** The bindings of the block under [if __name__ == "__main__"]. *)
Definition main_bindings : list (string * gobj) :=
  [("name", GValue (VStr "Carlos Bazaga"));
   ("cv_pdf", GValue (VStr "me/linkedin.pdf"));
   ("summary_txt", GValue (VStr "me/summary.txt"))].

Definition assign (g : gmap string gobj) (b : string * gobj) : gmap string gobj :=
  <[b.1 := b.2]> g.

Definition initial_globals : gmap string gobj := foldl assign ∅ interpreter_globals.

Definition is_main : bool :=
  match initial_globals !! "__name__" with
  | Some (GValue (VStr n)) => String.eqb n "__main__"
  | _ => false
  end.

Definition module_globals : gmap string gobj :=
  foldl assign initial_globals
        (source_bindings ++ (if is_main then main_bindings else [])).

(** [globals().get(tool_name)] *)
Definition globals_get (tool_name : string) : gobj :=
  default (GValue VNone) (module_globals !! tool_name).

(** *** [Me.handle_tool_call] *)

Definition loads (s : string) : M pyval :=
  match json_loads s with
  | Some v => ret v
  | None => raise JSONDecodeError
  end.

Definition dumps (v : pyval) : M string :=
  match json_dumps v with
  | Some s => ret s
  | None => raise (TypeError "Object is not JSON serializable")
  end.

Definition print (line : string) : M unit :=
  fun w => (Ret tt, log_print line w).

Definition tool_message (content : string) (id : string) : msg :=
  MDict [("role", VStr "tool"); ("content", VStr content); ("tool_call_id", VStr id)].

(** The value of the conditional expression: [tool] called with
    [**arguments] if [tool] is true, else [{}]. *)
Definition run_tool (tool : gobj) (arguments : pyval) : M pyval :=
  if truthy tool then call tool arguments else ret (VDict []).

(** One iteration of the [for] loop, up to the assignment of [result]. *)
Definition invoke (tc : tool_call) : M pyval :=
  let tool_name := fn_name (tc_function tc) in
  arguments <~ loads (fn_arguments (tc_function tc)) ;;
  print ("Tool called: " +:+ tool_name) ;;;
  let tool := globals_get tool_name in
  run_tool tool arguments.

(** The whole iteration: the message it appends to [results]. *)
Definition handle_one (tc : tool_call) : M msg :=
  result <~ invoke tc ;;
  content <~ dumps result ;;
  ret (tool_message content (tc_id tc)).

Fixpoint for_tool_calls (tcs : list tool_call) (results : list msg) : M (list msg) :=
  match tcs with
  | [] => ret results
  | tc :: rest =>
      m <~ handle_one tc ;;
      for_tool_calls rest (results ++ [m])
  end.

(** [message.tool_calls] may be [None], which a [for] cannot iterate. *)
Definition handle_tool_call (tool_calls : option (list tool_call)) : M (list msg) :=
  match tool_calls with
  | Some tcs => for_tool_calls tcs []
  | None => raise (TypeError "'NoneType' object is not iterable")
  end.

(** *** [Me.system_prompt] *)

Definition system_prompt (self : Me) : string :=
  "You are acting as " +:+ name self +:+ "."
  +:+ nl +:+ "You are answering questions on " +:+ name self
  +:+ "'s website, particularly questions"
  +:+ nl +:+ "related to " +:+ name self +:+ "'s career, background, skills and experience."
  +:+ nl +:+ "Your responsibility is to represent " +:+ name self +:+ " for interactions on the"
  +:+ nl +:+ "website as faithfully as possible."
  +:+ nl +:+ "You are given a summary of " +:+ name self +:+ "'s background and LinkedIn profile"
  +:+ nl +:+ "which you can use to answer questions."
  +:+ nl +:+ "Be professional and engaging, as if talking to a potential client or future"
  +:+ nl +:+ "employer who came across the website."
  +:+ nl +:+ "If you don't know the answer to any question, use your"
  +:+ nl +:+ dq +:+ "record_unknown_question" +:+ dq
  +:+ " tool to record the question that you couldn't"
  +:+ nl +:+ "answer, even if it's about something trivial or unrelated to career."
  +:+ nl +:+ "If the user is engaging in discussion, try to steer them towards getting in"
  +:+ nl +:+ "touch via email; ask for their email and record it using your"
  +:+ nl +:+ dq +:+ "record_user_details" +:+ dq
  +:+ " tool, but do this only once to avoid annoying the user"
  +:+ nl +:+ "or spamming me with same email several times, if user insists remind him that"
  +:+ nl +:+ "you already have their email and you'll contact them."
  +:+ lf
  +:+ nl +:+ "## Summary:"
  +:+ nl +:+ summary self
  +:+ lf
  +:+ nl +:+ "## LinkedIn Profile:"
  +:+ nl +:+ linkedin self
  +:+ lf
  +:+ nl +:+ "With this context, please chat with the user,"
  +:+ nl +:+ "always staying in character as " +:+ name self +:+ "."
  +:+ nl.

(** *** [Me.chat] *)

Definition system_message (self : Me) : msg :=
  MDict [("role", VStr "system"); ("content", VStr (system_prompt self))].

Definition user_message (message : string) : msg :=
  MDict [("role", VStr "user"); ("content", VStr message)].

(** The three statements before the loop. *)
Definition initial_messages (self : Me) (message : string) (history : list msg) : list msg :=
  ([system_message self] ++ history) ++ [user_message message].

(** The keyword arguments of the call in the loop. *)
Definition completion (messages : list msg) : completion_request :=
  {| req_model := "gpt-4o-mini"; req_messages := messages; req_tools := tools |}.

Definition create (messages : list msg) : M (list choice) :=
  fun w =>
    let r := completion messages in
    match completions_create w r with
    | ApiResponse choices => (Ret choices, log_request r w)
    | ApiRaise e => (Raise e, log_request r w)
    end.

(** [response.choices[0]] *)
Definition first_choice (choices : list choice) : M choice :=
  match choices with
  | c :: _ => ret c
  | [] => raise IndexError
  end.

(** One pass through the body of [while True]: either the loop is left with
    the text to return, or it goes round again with the extended list. *)
Inductive round_result : Type :=
| Final (text : option string)
| Again (messages : list msg).

Definition chat_round (messages : list msg) : M round_result :=
  response <~ create messages ;;
  c <~ first_choice response ;;
  if negb (String.eqb (finish_reason c) "tool_calls")
  then ret (Final (content (message c)))
  else
    results <~ handle_tool_call (tool_calls (message c)) ;;
    ret (Again ((messages ++ [MObject (message c)]) ++ results)).

(** The loop, run for at most [fuel] rounds; [None] when the fuel runs out
    before the loop is left. *)
Fixpoint chat_loop (fuel : nat) (messages : list msg) (w : world)
  : option (outcome (option string) * world) :=
  match fuel with
  | O => None
  | S fuel' =>
      match chat_round messages w with
      | (Ret (Final text), w') => Some (Ret text, w')
      | (Ret (Again messages'), w') => chat_loop fuel' messages' w'
      | (Raise e, w') => Some (Raise e, w')
      end
  end.

Definition chat (fuel : nat) (self : Me) (message : string) (history : list msg) (w : world)
  : option (outcome (option string) * world) :=
  chat_loop fuel (initial_messages self message history) w.

(** The state of the loop at the start of round [k], when round [k] is
    reached at all. *)
Fixpoint round_start (k : nat) (messages : list msg) (w : world) : option (list msg * world) :=
  match k with
  | O => Some (messages, w)
  | S k' =>
      match chat_round messages w with
      | (Ret (Again messages'), w') => round_start k' messages' w'
      | _ => None
      end
  end.

End App.

(** ** Relations used in the statements *)

(** [handled w tcs results w']: starting in [w], every invocation of [tcs],
    in order, ran to a result that serialized; [results] are the messages so
    produced and [w'] is the world afterwards. *)
Inductive handled {R : Runtime} : world -> list tool_call -> list msg -> world -> Prop :=
| handled_nil w : handled w [] [] w
| handled_cons w tc v s w1 tcs ms w2 :
    invoke tc w = (Ret v, w1) ->
    json_dumps v = Some s ->
    handled w1 tcs ms w2 ->
    handled w (tc :: tcs) (tool_message s (tc_id tc) :: ms) w2.

(** A computation is quiet when it issues no completion request. *)
Definition quiet {A} (c : M A) : Prop :=
  forall w, requests (c w).2 = requests w.

(** [s] occurs in [t]. *)
Definition occurs_in (s t : string) : Prop :=
  exists before after, t = before +:+ s +:+ after.

(** The [tool_call_id] of a message, if it is a dict that has one. *)
Definition tool_call_id_of (m : msg) : option pyval :=
  match m with
  | MDict d => kw_get "tool_call_id" d
  | MObject _ => None
  end.

(** The [role] and the [content] of a message, if it is a dict that has one. *)
Definition role_of (m : msg) : option pyval :=
  match m with
  | MDict d => kw_get "role" d
  | MObject _ => None
  end.

Definition content_of (m : msg) : option pyval :=
  match m with
  | MDict d => kw_get "content" d
  | MObject _ => None
  end.

(** [invoked w tcs values w']: starting in [w], the invocations of [tcs]
    ran one after the other, each in the world the one before left: its
    arguments deserialized, its announcement was printed, and the object
    found under its name in the globals, called with those arguments if it
    tests true, gave the result at its position in [values] (the empty
    object if it tests false); [w'] is the world afterwards. *)
Inductive invoked {R : Runtime} : world -> list tool_call -> list pyval -> world -> Prop :=
| invoked_nil w : invoked w [] [] w
| invoked_cons w tc arguments v w1 tcs vs w2 :
    json_loads (fn_arguments (tc_function tc)) = Some arguments ->
    (if truthy (globals_get (fn_name (tc_function tc)))
     then call (globals_get (fn_name (tc_function tc))) arguments
     else ret (VDict []))
      (log_print ("Tool called: " +:+ fn_name (tc_function tc)) w) = (Ret v, w1) ->
    invoked w1 tcs vs w2 ->
    invoked w (tc :: tcs) (v :: vs) w2.

(** The line an iteration of [handle_tool_call] prints. *)
Definition announcement (tc : tool_call) : string :=
  "Tool called: " +:+ fn_name (tc_function tc).

(** Whether a call of the object reaches code: functions, imported
    callables and the class do, modules and data do not. *)
Definition callable (g : gobj) : bool :=
  match g with
  | GImported _ | GFunction _ | GClassMe => true
  | GModule _ | GValue _ => false
  end.

(** *** Reading a tool schema *)

(** The entries of the list [tools]. *)
Definition tool_entries : list pyval :=
  match tools with
  | VList entries => entries
  | _ => []
  end.

(** [entry["function"]["parameters"]] *)
Definition schema_parameters (entry : pyval) : kwargs :=
  match entry with
  | VDict d =>
      match kw_get "function" d with
      | Some (VDict f) =>
          match kw_get "parameters" f with
          | Some (VDict p) => p
          | _ => []
          end
      | _ => []
      end
  | _ => []
  end.

(** The names under ["properties"]. *)
Definition schema_properties (entry : pyval) : list string :=
  match kw_get "properties" (schema_parameters entry) with
  | Some (VDict props) => props.*1
  | _ => []
  end.

(** The names under ["required"]. *)
Definition schema_required (entry : pyval) : list string :=
  match kw_get "required" (schema_parameters entry) with
  | Some (VList names) =>
      omap (fun v => match v with VStr n => Some n | _ => None end) names
  | _ => []
  end.

(** The keys of an argument object conform to a schema that forbids
    additional properties: each key is a declared property and each required
    property is among the keys. (The declared types are not looked at.) *)
Definition conforms (entry : pyval) (kw : kwargs) : bool :=
  forallb (fun p => bool_decide (p.1 ∈ schema_properties entry)) kw
  && forallb (fun r => bool_decide (is_Some (kw_get r kw))) (schema_required entry).

(** ** [Me.__init__] *)

(** What the constructor reaches outside the module. *)
Class Documents := {
  (** [OpenAI()]: the exception it raises, if any *)
  new_client : option exn;
  (** [PdfReader(path).pages], each page by what its [extract_text()] does *)
  pdf_pages : string -> outcome (list (outcome string));
  (** [open(path, "r", encoding="utf-8")] and [f.read()] *)
  read_text : string -> outcome string
}.

(** The loop over [reader.pages], from the value [self.linkedin] has. *)
Fixpoint for_pages (pages : list (outcome string)) (linkedin : string) : outcome string :=
  match pages with
  | [] => Ret linkedin
  | Ret text :: rest =>
      for_pages rest (if negb (String.eqb text EmptyString)
                      then linkedin +:+ text else linkedin)
  | Raise e :: _ => Raise e
  end.

Definition Me_init {D : Documents} (name cv_pdf_path summary_path : string) : outcome Me :=
  match new_client with
  | Some e => Raise e
  | None =>
      match pdf_pages cv_pdf_path with
      | Raise e => Raise e
      | Ret pages =>
          match for_pages pages EmptyString with
          | Raise e => Raise e
          | Ret linkedin =>
              match read_text summary_path with
              | Raise e => Raise e
              | Ret summary =>
                  Ret {| name := name; linkedin := linkedin; summary := summary |}
              end
          end
      end
  end.

(** [''.join(texts)] *)
Fixpoint join_texts (texts : list string) : string :=
  match texts with
  | [] => EmptyString
  | t :: rest => t +:+ join_texts rest
  end.

(** ** Concrete runtimes, for examples *)

Module Demo.

Definition q (s : string) : string := dq +:+ s +:+ dq.

Definition args_empty : string := "{}".
Definition args_text : string := "{" +:+ q "text" +:+ ": " +:+ q "hi" +:+ "}".
Definition args_question : string :=
  "{" +:+ q "question" +:+ ": " +:+ q "What is your favorite color?" +:+ "}".
Definition args_email : string := "{" +:+ q "email" +:+ ": " +:+ q "a@b.com" +:+ "}".
Definition args_broken : string := "{" +:+ q "question" +:+ ": ".

(** [json.loads] on the argument strings of the examples; anything else,
    [args_broken] included, is taken not to parse. *)
Definition loads_table (s : string) : option pyval :=
  if String.eqb s args_empty then Some (VDict [])
  else if String.eqb s args_text then Some (VDict [("text", VStr "hi")])
  else if String.eqb s args_question
       then Some (VDict [("question", VStr "What is your favorite color?")])
  else if String.eqb s args_email then Some (VDict [("email", VStr "a@b.com")])
  else None.

(** [repr] on the scalars; the examples format strings only. *)
Definition repr_scalars (v : pyval) : string :=
  match v with
  | VNone => "None"
  | VBool true => "True"
  | VBool false => "False"
  | VInt z => pretty z
  | VFloat r => r
  | _ => "..."
  end.

(** The globals CPython binds when the file is run as [python app.py]. *)
Definition script_globals : list (string * gobj) :=
  [("__name__", GValue (VStr "__main__"));
   ("__doc__", GValue VNone);
   ("__package__", GValue VNone);
   ("__loader__", GValue (VObject "SourceFileLoader"));
   ("__spec__", GValue VNone);
   ("__annotations__", GValue (VDict []));
   ("__builtins__", GModule "builtins");
   ("__file__", GValue (VStr "app.py"));
   ("__cached__", GValue VNone)].

Definition environ (k : string) : option string :=
  if String.eqb k "PUSHOVER_USER" then Some "user-key"
  else if String.eqb k "PUSHOVER_TOKEN" then Some "app-token"
  else None.

(** A runtime whose completion API answers its [n]-th request with the
    [n]-th entry of [script] (and with [otherwise] beyond it), and whose
    notification transport always ends as [transport]. *)
Definition scripted (script : list api_outcome) (otherwise : api_outcome)
    (transport : post_outcome) : Runtime :=
  {| getenv := environ;
     post := fun _ _ => transport;
     completions_create := fun w _ => default otherwise (script !! List.length (requests w));
     json_loads := loads_table;
     py_repr := repr_scalars;
     imported := fun _ callee _ => Raise (External callee);
     interpreter_globals := script_globals |}.

Definition w0 : world :=
  {| outbox := []; stdout := []; requests := []; imported_calls := [] |}.

Definition me : Me :=
  {| name := "Carlos Bazaga"; linkedin := "Software engineer."; summary := "I build things." |}.

Definition invocation (id tool_name arguments : string) : tool_call :=
  {| tc_id := id; tc_function := {| fn_name := tool_name; fn_arguments := arguments |} |}.

Definition asks (tcs : list tool_call) : api_outcome :=
  ApiResponse [{| finish_reason := "tool_calls";
                  message := {| content := None; tool_calls := Some tcs |} |}].

Definition says (text : string) : api_outcome :=
  ApiResponse [{| finish_reason := "stop";
                  message := {| content := Some text; tool_calls := None |} |}].

Definition delivered : post_outcome := Responded 200.
Definition rejected : post_outcome := Responded 500.
Definition unreachable : post_outcome := PostRaise (External "ConnectionError").

(** An invocation of a name that nothing binds. *)
Definition noop : tool_call := invocation "call_0" "nosuch" args_empty.

(** The model answers at once; notifications are delivered. *)
Definition online : Runtime := scripted [] (says "done") delivered.

(** The same, with a notification service that answers every request with
    a server error. *)
Definition failing : Runtime := scripted [] (says "done") rejected.

(** The model asks for the question to be recorded, then answers; the
    notification service cannot be reached. *)
Definition offline : Runtime :=
  scripted [asks [invocation "call_1" "record_unknown_question" args_question]; says "done"]
           (says "done") unreachable.

(** The model asks for an unknown tool and then for the contact to be
    recorded, in one response; the notification service cannot be reached. *)
Definition offline_later : Runtime :=
  scripted [asks [noop; invocation "call_1" "record_user_details" args_email]; says "done"]
           (says "done") unreachable.

(** The model asks for both tools in one response, then answers. *)
Definition two_tools : Runtime :=
  scripted [asks [invocation "call_1" "record_user_details" args_email;
                  invocation "call_2" "record_unknown_question" args_question];
            says "done"]
           (says "done") delivered.

(** The model asks for a tool in each of its first [n] answers, then stops. *)
Definition rounds (n : nat) : Runtime :=
  scripted (replicate n (asks [noop])) (says "done") delivered.

(** The model asks for a tool in every answer. *)
Definition forever : Runtime := scripted [] (asks [noop]) delivered.

(** A three-page PDF whose second page has no text, and a summary file. *)
Definition papers : Documents :=
  {| new_client := None;
     pdf_pages := fun path =>
       if String.eqb path "me/linkedin.pdf"
       then Ret [Ret "Software "; Ret EmptyString; Ret "engineer."]
       else Raise (External "FileNotFoundError");
     read_text := fun path =>
       if String.eqb path "me/summary.txt"
       then Ret "I build things."
       else Raise (External "FileNotFoundError") |}.

(** Like [online], with a [json.loads] that also reads the empty list. *)
Definition loose : Runtime :=
  {| getenv := environ;
     post := fun _ _ => delivered;
     completions_create := fun _ _ => says "done";
     json_loads := fun s => if String.eqb s "[]" then Some (VList []) else loads_table s;
     py_repr := repr_scalars;
     imported := fun _ callee _ => Raise (External callee);
     interpreter_globals := script_globals |}.

(** A response that announces tool calls and carries the given list. *)
Definition announces (tcs : option (list tool_call)) : api_outcome :=
  ApiResponse [{| finish_reason := "tool_calls";
                  message := {| content := None; tool_calls := tcs |} |}].

End Demo.

(** ** Basic facts about the monad and the handlers *)

Section Facts.
Context {R : Runtime}.

Lemma bind_Ret {A B} (c : M A) (k : A -> M B) w a w' :
  c w = (Ret a, w') -> bind c k w = k a w'.
Proof. intros H. unfold bind. now rewrite H. Qed.

Lemma bind_Raise {A B} (c : M A) (k : A -> M B) w e w' :
  c w = (Raise e, w') -> bind c k w = (Raise e, w').
Proof. intros H. unfold bind. now rewrite H. Qed.

Lemma bind_inv_Ret {A B} (c : M A) (k : A -> M B) w b w' :
  bind c k w = (Ret b, w') -> exists a w1, c w = (Ret a, w1) /\ k a w1 = (Ret b, w').
Proof.
  unfold bind. destruct (c w) as [[a|e] w1]; intros H.
  - eauto.
  - discriminate.
Qed.

Lemma quiet_ret {A} (a : A) : quiet (ret a).
Proof. now intros w. Qed.

Lemma quiet_raise {A} e : quiet (@raise A e).
Proof. now intros w. Qed.

Lemma quiet_bind {A B} (c : M A) (k : A -> M B) :
  quiet c -> (forall a, quiet (k a)) -> quiet (bind c k).
Proof.
  intros Hc Hk w. unfold bind. specialize (Hc w).
  destruct (c w) as [[a|e] w1]; simpl in *.
  - now rewrite Hk.
  - exact Hc.
Qed.

Lemma quiet_push text : quiet (push text).
Proof. intros w. unfold push. now destruct (post w _). Qed.

Lemma quiet_print line : quiet (print line).
Proof. now intros w. Qed.

Lemma quiet_call_imported callee kw : quiet (call_imported callee kw).
Proof. now intros w. Qed.

Lemma quiet_loads s : quiet (loads s).
Proof. unfold loads. destruct (json_loads s); [apply quiet_ret | apply quiet_raise]. Qed.

Lemma quiet_dumps v : quiet (dumps v).
Proof. unfold dumps. destruct (json_dumps v); [apply quiet_ret | apply quiet_raise]. Qed.

Create HintDb quiet.
#[local] Hint Resolve quiet_ret quiet_raise quiet_bind quiet_push quiet_print
  quiet_call_imported quiet_loads quiet_dumps : quiet.

Lemma quiet_call_function f kw : quiet (call_function f kw).
Proof.
  destruct f; simpl; unfold bad_call, record_user_details, record_unknown_question;
    match goal with |- context [accepts ?a ?b ?c] => destruct (accepts a b c) end;
    auto 6 with quiet.
Qed.

Lemma quiet_call tool arguments : quiet (call tool arguments).
Proof.
  unfold call. destruct arguments; auto with quiet.
  destruct tool; auto using quiet_call_function with quiet.
  unfold bad_call.
  match goal with |- context [accepts ?a ?b ?c] => destruct (accepts a b c) end;
    auto 6 with quiet.
Qed.

Lemma quiet_run_tool tool arguments : quiet (run_tool tool arguments).
Proof.
  unfold run_tool. destruct (truthy tool); auto using quiet_call with quiet.
Qed.

Lemma quiet_invoke tc : quiet (invoke tc).
Proof.
  unfold invoke. auto 8 using quiet_run_tool with quiet.
Qed.

(** *** The [for] loop of [handle_tool_call] *)

Lemma handle_one_Ret tc w v s w1 :
  invoke tc w = (Ret v, w1) -> json_dumps v = Some s ->
  handle_one tc w = (Ret (tool_message s (tc_id tc)), w1).
Proof.
  intros Hi Hs. unfold handle_one. rewrite (bind_Ret _ _ _ _ _ Hi).
  unfold dumps. now rewrite Hs.
Qed.

Lemma handle_one_inv tc w m w1 :
  handle_one tc w = (Ret m, w1) ->
  exists v s, invoke tc w = (Ret v, w1) /\ json_dumps v = Some s
              /\ m = tool_message s (tc_id tc).
Proof.
  unfold handle_one. intros H.
  apply bind_inv_Ret in H as (v & w2 & Hi & H).
  unfold dumps in H. destruct (json_dumps v) as [s|] eqn:Hs; [|discriminate].
  cbv [bind ret] in H. inversion H; subst. eauto.
Qed.

Lemma handle_one_Raise tc w e w1 :
  invoke tc w = (Raise e, w1) -> handle_one tc w = (Raise e, w1).
Proof. intros Hi. unfold handle_one. now rewrite (bind_Raise _ _ _ _ _ Hi). Qed.

Lemma for_tool_calls_handled tcs : forall (acc : list msg) w ms w',
  handled w tcs ms w' -> for_tool_calls tcs acc w = (Ret (acc ++ ms), w').
Proof.
  induction tcs as [|tc tcs IH]; intros acc w ms w' H; inversion H; subst; simpl.
  - now rewrite app_nil_r.
  - erewrite bind_Ret by (eapply handle_one_Ret; eassumption).
    erewrite IH by eassumption. now rewrite <- app_assoc.
Qed.

Lemma for_tool_calls_inv tcs : forall (acc : list msg) w results w',
  for_tool_calls tcs acc w = (Ret results, w') ->
  exists ms, handled w tcs ms w' /\ results = acc ++ ms.
Proof.
  induction tcs as [|tc tcs IH]; intros acc w results w' H; simpl in H.
  - inversion H; subst. exists []. split; [constructor | now rewrite app_nil_r].
  - apply bind_inv_Ret in H as (m & w1 & Hm & H).
    apply handle_one_inv in Hm as (v & s & Hi & Hs & ->).
    apply IH in H as (ms & Hh & ->).
    exists (tool_message s (tc_id tc) :: ms). split.
    + econstructor; eassumption.
    + now rewrite <- app_assoc.
Qed.

Lemma handled_length w tcs ms w' :
  handled w tcs ms w' -> List.length ms = List.length tcs.
Proof. induction 1; simpl; congruence. Qed.

Lemma handled_ids w tcs ms w' :
  handled w tcs ms w' -> map tool_call_id_of ms = map (fun tc => Some (VStr (tc_id tc))) tcs.
Proof. induction 1; simpl; congruence. Qed.

Lemma handled_requests w tcs ms w' :
  handled w tcs ms w' -> requests w' = requests w.
Proof.
  induction 1 as [|w tc v s w1 tcs ms w2 Hi _ _ IH]; [reflexivity|].
  rewrite IH. pose proof (quiet_invoke tc w) as Hq. now rewrite Hi in Hq.
Qed.

(** Every message of a handled response is the tool message of the
    invocation at the same position. *)
Lemma handled_lookup w tcs ms w' :
  handled w tcs ms w' ->
  Forall2 (fun tc m => exists v s wa wb,
             invoke tc wa = (Ret v, wb) /\ json_dumps v = Some s
             /\ m = tool_message s (tc_id tc)) tcs ms.
Proof. induction 1; constructor; eauto 8. Qed.

Lemma invoke_Ret_inv tc w v w1 :
  invoke tc w = (Ret v, w1) ->
  exists arguments,
    json_loads (fn_arguments (tc_function tc)) = Some arguments
    /\ (if truthy (globals_get (fn_name (tc_function tc)))
        then call (globals_get (fn_name (tc_function tc))) arguments
        else ret (VDict []))
         (log_print ("Tool called: " +:+ fn_name (tc_function tc)) w) = (Ret v, w1).
Proof.
  unfold invoke, loads.
  destruct (json_loads (fn_arguments (tc_function tc))) as [arguments|];
    [|discriminate].
  intros H. exists arguments. split; [reflexivity | exact H].
Qed.

(** The messages of a handled response, read key by key: each is the dict
    with role [tool], the serialized result of the invocation at its
    position as content, and that invocation's id. *)
Lemma handled_invoked w tcs ms w' :
  handled w tcs ms w' ->
  exists values contents,
    invoked w tcs values w'
    /\ Forall2 (fun v s => json_dumps v = Some s) values contents
    /\ ms = zip_with (fun tc s =>
                        MDict [("role", VStr "tool"); ("content", VStr s);
                               ("tool_call_id", VStr (tc_id tc))]) tcs contents
    /\ map role_of ms = map (fun _ => Some (VStr "tool")) tcs
    /\ map content_of ms = map (fun s => Some (VStr s)) contents.
Proof.
  induction 1 as [w|w tc v s w1 tcs ms w2 Hi Hs _ IH].
  - exists [], []. split_and!; try reflexivity; constructor.
  - destruct IH as (values & contents & Hv & Hc & -> & Hr & Hco).
    apply invoke_Ret_inv in Hi as (arguments & Hl & Hi).
    exists (v :: values), (s :: contents). split_and!.
    + econstructor; eassumption.
    + now constructor.
    + reflexivity.
    + simpl. now rewrite Hr.
    + simpl. now rewrite Hco.
Qed.

(** An invocation that raises ends the loop, whatever precedes it. *)
Lemma for_tool_calls_stops (before : list tool_call) : forall tc after acc w,
  (forall w1, exists e w2, invoke tc w1 = (Raise e, w2)) ->
  exists e w', for_tool_calls (before ++ tc :: after) acc w = (Raise e, w').
Proof.
  induction before as [|b before IH]; intros tc after acc w Hr; simpl.
  - destruct (Hr w) as (e & w2 & Hi). exists e, w2.
    now rewrite (bind_Raise _ _ _ _ _ (handle_one_Raise _ _ _ _ Hi)).
  - unfold bind at 1. destruct (handle_one b w) as [[m|e] w1]; eauto.
Qed.

Lemma for_tool_calls_app (before : list tool_call) : forall rest (acc : list msg) w ms w1,
  handled w before ms w1 ->
  for_tool_calls (before ++ rest) acc w = for_tool_calls rest (acc ++ ms) w1.
Proof.
  induction before as [|b before IH]; intros rest acc w ms w1 H; inversion H; subst; simpl.
  - now rewrite app_nil_r.
  - erewrite bind_Ret by (eapply handle_one_Ret; eassumption).
    erewrite IH by eassumption. now rewrite <- app_assoc.
Qed.

(** *** The global symbol table *)

(** A name the module binds keeps, in [module_globals], the object of its
    last binding; the names below are bound once. *)
Lemma source_binding_wins k v :
  (k, v) ∈ source_bindings ->
  module_globals !! k = Some v.
Proof.
  intros Hin. unfold module_globals. rewrite foldl_app.
  unfold source_bindings in Hin.
  repeat (apply elem_of_cons in Hin as [Hin|Hin];
    [inversion Hin; subst; clear Hin;
     destruct is_main; unfold source_bindings, main_bindings;
     cbn [foldl]; unfold assign; cbn [fst snd];
     repeat (rewrite lookup_insert_ne by discriminate); now apply lookup_insert_eq|]).
  inversion Hin.
Qed.

Lemma globals_get_absent k :
  module_globals !! k = None -> globals_get k = GValue VNone.
Proof. intros H. unfold globals_get. now rewrite H. Qed.

Lemma globals_get_bound k g :
  module_globals !! k = Some g -> globals_get k = g.
Proof. intros H. unfold globals_get. now rewrite H. Qed.

(** *** One round of the loop *)

Lemma chat_round_stop msgs w c others :
  completions_create w (completion msgs) = ApiResponse (c :: others) ->
  finish_reason c <> "tool_calls" ->
  chat_round msgs w = (Ret (Final (content (message c))), log_request (completion msgs) w).
Proof.
  intros Hc Hf. unfold chat_round, create, bind. rewrite Hc. simpl.
  apply String.eqb_neq in Hf. now rewrite Hf.
Qed.

Lemma chat_round_tools msgs w c others :
  completions_create w (completion msgs) = ApiResponse (c :: others) ->
  finish_reason c = "tool_calls" ->
  chat_round msgs w =
    match handle_tool_call (tool_calls (message c)) (log_request (completion msgs) w) with
    | (Ret results, w') => (Ret (Again ((msgs ++ [MObject (message c)]) ++ results)), w')
    | (Raise e, w') => (Raise e, w')
    end.
Proof.
  intros Hc Hf. unfold chat_round, create, bind. rewrite Hc. simpl.
  apply String.eqb_eq in Hf. rewrite Hf. simpl.
  now destruct (handle_tool_call _ _) as [[results|e] w'].
Qed.

Lemma chat_round_handled msgs w c others tcs results w' :
  completions_create w (completion msgs) = ApiResponse (c :: others) ->
  finish_reason c = "tool_calls" ->
  tool_calls (message c) = Some tcs ->
  handled (log_request (completion msgs) w) tcs results w' ->
  chat_round msgs w = (Ret (Again ((msgs ++ [MObject (message c)]) ++ results)), w').
Proof.
  intros Hc Hf Ht Hh. rewrite (chat_round_tools _ _ _ _ Hc Hf), Ht. simpl.
  now rewrite (for_tool_calls_handled _ _ _ _ _ Hh).
Qed.

Lemma chat_round_Final_inv msgs w text w' :
  chat_round msgs w = (Ret (Final text), w') ->
  exists c others,
    completions_create w (completion msgs) = ApiResponse (c :: others)
    /\ finish_reason c <> "tool_calls"
    /\ text = content (message c)
    /\ w' = log_request (completion msgs) w.
Proof.
  unfold chat_round, create, bind.
  destruct (completions_create w (completion msgs)) as [[|c others]|e] eqn:Hc;
    simpl; try discriminate.
  destruct (String.eqb (finish_reason c) "tool_calls") eqn:Hf; simpl.
  - destruct (handle_tool_call _ _) as [[results|e] w1]; discriminate.
  - intros H. inversion H; subst. exists c, others.
    apply String.eqb_neq in Hf. auto.
Qed.

Lemma quiet_for_tool_calls tcs : forall acc, quiet (for_tool_calls tcs acc).
Proof.
  induction tcs as [|tc tcs IH]; intros acc; simpl.
  - apply quiet_ret.
  - apply quiet_bind; [|auto].
    unfold handle_one. auto 6 using quiet_invoke with quiet.
Qed.

Lemma quiet_handle_tool_call tcs : quiet (handle_tool_call tcs).
Proof.
  destruct tcs; simpl; [apply quiet_for_tool_calls | apply quiet_raise].
Qed.

(** A round issues exactly one completion request, for the list it was
    entered with. *)
Lemma chat_round_requests msgs w :
  requests (chat_round msgs w).2 = requests w ++ [completion msgs].
Proof.
  unfold chat_round, create, bind.
  destruct (completions_create w (completion msgs)) as [[|c others]|e]; simpl;
    try reflexivity.
  destruct (String.eqb (finish_reason c) "tool_calls"); simpl; [|reflexivity].
  pose proof (quiet_handle_tool_call (tool_calls (message c))
                (log_request (completion msgs) w)) as Hq.
  destruct (handle_tool_call _ _) as [[results|e] w1]; simpl in *; exact Hq.
Qed.

(** An invocation that raises, after invocations that were handled, ends
    the [chat] call with its exception. *)
Lemma chat_aborts_at msgs w c others before tc after ms w1 e w2 fuel :
  completions_create w (completion msgs) = ApiResponse (c :: others) ->
  finish_reason c = "tool_calls" ->
  tool_calls (message c) = Some (before ++ tc :: after) ->
  handled (log_request (completion msgs) w) before ms w1 ->
  invoke tc w1 = (Raise e, w2) ->
  chat_loop (S fuel) msgs w = Some (Raise e, w2).
Proof.
  intros Hc Hf Ht Hh Hi. simpl.
  rewrite (chat_round_tools _ _ _ _ Hc Hf), Ht. simpl.
  rewrite (for_tool_calls_app _ _ _ _ _ _ Hh). simpl.
  now rewrite (bind_Raise _ _ _ _ _ (handle_one_Raise _ _ _ _ Hi)).
Qed.

(** *** Leaving the loop *)

Lemma chat_loop_S fuel msgs w :
  chat_loop (S fuel) msgs w
  = match chat_round msgs w with
    | (Ret (Final text), w') => Some (Ret text, w')
    | (Ret (Again messages'), w') => chat_loop fuel messages' w'
    | (Raise e, w') => Some (Raise e, w')
    end.
Proof. reflexivity. Qed.

Lemma round_start_stop k : forall msgs w msgs_k w_k c others,
  round_start k msgs w = Some (msgs_k, w_k) ->
  completions_create w_k (completion msgs_k) = ApiResponse (c :: others) ->
  finish_reason c <> "tool_calls" ->
  chat_loop (S k) msgs w
  = Some (Ret (content (message c)), log_request (completion msgs_k) w_k).
Proof.
  induction k as [|k IH]; intros msgs w msgs_k w_k c others Hs Hc Hf.
  - simpl in Hs. inversion Hs; subst. simpl.
    now rewrite (chat_round_stop _ _ _ _ Hc Hf).
  - simpl in Hs. rewrite chat_loop_S.
    destruct (chat_round msgs w) as [[[text|msgs']|e] w1]; try discriminate.
    eapply IH; eassumption.
Qed.

Lemma chat_loop_stop_round fuel : forall msgs w text w',
  chat_loop fuel msgs w = Some (Ret text, w') ->
  exists k msgs_k w_k c others,
    round_start k msgs w = Some (msgs_k, w_k)
    /\ completions_create w_k (completion msgs_k) = ApiResponse (c :: others)
    /\ finish_reason c <> "tool_calls".
Proof.
  induction fuel as [|fuel IH]; intros msgs w text w' H; [discriminate|].
  simpl in H. destruct (chat_round msgs w) as [[[t|msgs']|e] w1] eqn:Hr.
  - apply chat_round_Final_inv in Hr as (c & others & Hc & Hf & _ & _).
    exists 0, msgs, w, c, others. auto.
  - apply IH in H as (k & msgs_k & w_k & c & others & Hs & Hc & Hf).
    exists (S k), msgs_k, w_k, c, others. simpl. rewrite Hr. auto.
  - discriminate.
Qed.

Lemma perpetual_never_returns fuel : forall msgs w,
  (forall w1 r, exists c others,
      completions_create w1 r = ApiResponse (c :: others)
      /\ finish_reason c = "tool_calls") ->
  forall text w', chat_loop fuel msgs w <> Some (Ret text, w').
Proof.
  induction fuel as [|fuel IH]; intros msgs w Hp text w' H; [discriminate|].
  simpl in H. destruct (chat_round msgs w) as [[[t|msgs']|e] w1] eqn:Hr.
  - apply chat_round_Final_inv in Hr as (c & others & Hc & Hf & _ & _).
    destruct (Hp w (completion msgs)) as (c' & others' & Hc' & Hf').
    rewrite Hc in Hc'. inversion Hc'; subst. contradiction.
  - eapply IH; eauto.
  - discriminate.
Qed.

(** *** The requests of a run *)

Lemma chat_round_Again_inv msgs w msgs' w' :
  chat_round msgs w = (Ret (Again msgs'), w') -> msgs `prefix_of` msgs'.
Proof.
  unfold chat_round, create, bind.
  destruct (completions_create w (completion msgs)) as [[|c others]|e];
    simpl; try discriminate.
  destruct (String.eqb (finish_reason c) "tool_calls"); simpl; [|discriminate].
  destruct (handle_tool_call _ _) as [[results|e] w1]; [|discriminate].
  intros H. inversion H; subst.
  exists ([MObject (message c)] ++ results). now rewrite app_assoc.
Qed.

(** A run that ends has issued its requests one after the other, the first
    for the list the loop was entered with, every later one for an
    extension of that list. *)
Lemma chat_loop_requests fuel : forall msgs w out w',
  chat_loop fuel msgs w = Some (out, w') ->
  exists later,
    requests w' = requests w ++ completion msgs :: later
    /\ Forall (fun r => msgs `prefix_of` req_messages r) later.
Proof.
  induction fuel as [|fuel IH]; intros msgs w out w' H; [discriminate|].
  rewrite chat_loop_S in H. pose proof (chat_round_requests msgs w) as Hq.
  destruct (chat_round msgs w) as [[[t|msgs']|e] w1] eqn:Hr; simpl in Hq.
  - inversion H; subst. exists []. split; [exact Hq | constructor].
  - apply chat_round_Again_inv in Hr.
    apply IH in H as (later & Hl & Hall).
    exists (completion msgs' :: later). split.
    + rewrite Hl, Hq, <- app_assoc. reflexivity.
    + constructor; [exact Hr|].
      eapply Forall_impl; [exact Hall|]. intros r Hp. simpl in Hp.
      etransitivity; eassumption.
  - inversion H; subst. exists []. split; [exact Hq | constructor].
Qed.

(** *** Occurrences in a concatenation *)

Lemma occurs_in_head s rest : occurs_in s (s +:+ rest).
Proof. exists EmptyString, rest. reflexivity. Qed.

Lemma append_assoc (a b c : string) : (a +:+ b) +:+ c = a +:+ (b +:+ c).
Proof.
  induction a as [|x a IH]; [reflexivity|].
  change (String x ((a +:+ b) +:+ c) = String x (a +:+ (b +:+ c))).
  now rewrite IH.
Qed.

Lemma append_nil_r (a : string) : a +:+ EmptyString = a.
Proof.
  induction a as [|x a IH]; [reflexivity|].
  change (String x (a +:+ EmptyString) = String x a). now rewrite IH.
Qed.

Lemma occurs_in_refl s : occurs_in s s.
Proof. exists EmptyString, EmptyString. now rewrite append_nil_r. Qed.

Lemma occurs_in_app_r s a t : occurs_in s t -> occurs_in s (a +:+ t).
Proof.
  intros (b & c & ->). exists (a +:+ b), c.
  now rewrite append_assoc.
Qed.

End Facts.

Ltac find_occurrence :=
  repeat first [apply occurs_in_head | apply occurs_in_refl | apply occurs_in_app_r].

(** ** The claims *)

Section Claims.
Context {R : Runtime}.

(** C4. When the first response of the completion API has a termination
    reason other than [tool_calls], [chat] returns that response's text
    content; the only thing that has left the process is that one completion
    request: no notification was handed to the transport, no tool was
    announced or run, no imported callable was invoked. *)
Theorem first_stop_returns_text (self : Me) (text : string) (history : list msg)
    (w : world) (c : choice) (others : list choice) (fuel : nat) :
  completions_create w (completion (initial_messages self text history))
    = ApiResponse (c :: others) ->
  finish_reason c <> "tool_calls" ->
  exists w',
    chat (S fuel) self text history w = Some (Ret (content (message c)), w')
    /\ outbox w' = outbox w
    /\ stdout w' = stdout w
    /\ imported_calls w' = imported_calls w
    /\ requests w' = requests w ++ [completion (initial_messages self text history)].
Proof.
  intros Hc Hf.
  exists (log_request (completion (initial_messages self text history)) w).
  unfold chat. simpl. rewrite (chat_round_stop _ _ _ _ Hc Hf). auto.
Qed.

(** C5. Called with a question, the record-unanswered-question handler hands
    exactly one notification to the transport, whose text is ["Recording "]
    followed by the question and so contains it; once the transport has
    answered, the handler returns [{"recorded": "ok"}]. *)
Theorem record_unknown_question_notifies (question : string) (w : world) (status : nat) :
  post w (push_request (VStr ("Recording " +:+ question))) = Responded status ->
  exists w',
    call (globals_get "record_unknown_question") (VDict [("question", VStr question)]) w
      = (Ret (VDict [("recorded", VStr "ok")]), w')
    /\ outbox w' = outbox w ++ [push_request (VStr ("Recording " +:+ question))]
    /\ kw_get "message" (data (push_request (VStr ("Recording " +:+ question))))
       = Some (VStr ("Recording " +:+ question))
    /\ occurs_in question ("Recording " +:+ question)
    /\ json_dumps (VDict [("recorded", VStr "ok")])
       = Some ("{" +:+ dq +:+ "recorded" +:+ dq +:+ ": " +:+ dq +:+ "ok" +:+ dq +:+ "}").
Proof.
  intros Hp.
  exists (log_post (push_request (VStr ("Recording " +:+ question))) w).
  rewrite (globals_get_bound "record_unknown_question" (GFunction Frecord_unknown_question))
    by (apply source_binding_wins; unfold source_bindings; set_solver).
  split_and!; try reflexivity.
  - cbn [call call_function].
    change (accepts ["question"] ["question"] [("question", VStr question)]) with true.
    cbv iota. unfold record_unknown_question, question_text, arg, bind, push. simpl.
    now rewrite Hp.
  - find_occurrence.
Qed.


(** C7. [chat] starts from exactly one system message, holding the prompt
    built from the persona's name, summary and background, then the prior
    history unchanged, then one user message holding the user's text. The
    loop runs on that list: the first completion request carries it, and
    every later request of the call carries an extension of it. With no
    history and an empty text the list is the system message followed by a
    user message with empty content. *)
Theorem chat_builds_messages (self : Me) (text : string) (history : list msg)
    (w : world) (fuel : nat) :
  let built :=
    MDict [("role", VStr "system"); ("content", VStr (system_prompt self))]
    :: history ++ [MDict [("role", VStr "user"); ("content", VStr text)]] in
  initial_messages self text history = built
  /\ occurs_in (name self) (system_prompt self)
  /\ occurs_in (summary self) (system_prompt self)
  /\ occurs_in (linkedin self) (system_prompt self)
  /\ chat fuel self text history w = chat_loop fuel built w
  /\ requests (chat_round (initial_messages self text history) w).2
     = requests w ++
       [{| req_model := "gpt-4o-mini"; req_messages := built; req_tools := tools |}]
  /\ (forall out w',
        chat fuel self text history w = Some (out, w') ->
        exists later,
          requests w' = requests w ++
            {| req_model := "gpt-4o-mini"; req_messages := built; req_tools := tools |}
            :: later
          /\ Forall (fun r => built `prefix_of` req_messages r) later)
  /\ initial_messages self EmptyString []
     = [MDict [("role", VStr "system"); ("content", VStr (system_prompt self))];
        MDict [("role", VStr "user"); ("content", VStr EmptyString)]].
Proof.
  intros built. split_and!; try reflexivity.
  - unfold system_prompt. find_occurrence.
  - unfold system_prompt. find_occurrence.
  - unfold system_prompt. find_occurrence.
  - apply chat_round_requests.
  - intros out w' H. apply chat_loop_requests in H. exact H.
Qed.

(** C9. An invocation whose arguments do not deserialize is not handled:
    its iteration raises the deserialization error before anything else
    happens, the [for] loop of [handle_tool_call] ends with an exception
    wherever the invocation stands in the list (with that very error when
    the invocations before it were handled), and the [chat] call that
    received the response ends with an exception instead of going round. *)
Theorem malformed_arguments_abort (tc : tool_call) :
  json_loads (fn_arguments (tc_function tc)) = None ->
  (forall w, handle_one tc w = (Raise JSONDecodeError, w))
  /\ (forall before after w, exists e w',
        handle_tool_call (Some (before ++ tc :: after)) w = (Raise e, w'))
  /\ (forall before after w ms w1,
        handled w before ms w1 ->
        handle_tool_call (Some (before ++ tc :: after)) w = (Raise JSONDecodeError, w1))
  /\ (forall msgs w c others before after fuel,
        completions_create w (completion msgs) = ApiResponse (c :: others) ->
        finish_reason c = "tool_calls" ->
        tool_calls (message c) = Some (before ++ tc :: after) ->
        exists e w', chat_loop (S fuel) msgs w = Some (Raise e, w')).
Proof.
  intros Hl.
  assert (Hi : forall w, invoke tc w = (Raise JSONDecodeError, w)).
  { intros w. unfold invoke, loads, bind. now rewrite Hl. }
  assert (Hall : forall before after w, exists e w',
             handle_tool_call (Some (before ++ tc :: after)) w = (Raise e, w')).
  { intros before after w. simpl. apply for_tool_calls_stops.
    intros w1. exists JSONDecodeError, w1. apply Hi. }
  split_and!.
  - intros w. apply handle_one_Raise, Hi.
  - exact Hall.
  - intros before after w ms w1 Hh. simpl.
    rewrite (for_tool_calls_app _ _ _ _ _ _ Hh). simpl.
    now rewrite (bind_Raise _ _ _ _ _ (handle_one_Raise _ _ _ _ (Hi w1))).
  - intros msgs w c others before after fuel Hc Hf Ht.
    destruct (Hall before after (log_request (completion msgs) w)) as (e & w' & He).
    exists e, w'. simpl. rewrite (chat_round_tools _ _ _ _ Hc Hf), Ht, He. reflexivity.
Qed.

(** C1, as amended. An invocation whose arguments deserialize and whose
    tool name is not bound in the module's global symbol table gets the
    empty result object: its iteration only prints the announcement, raises
    nothing and appends the tool message with content [{}]; the [for] loop
    goes on with the invocations that follow, and, when the other
    invocations of the response are handled too, [chat] goes round to the
    next completion request with that message in place. *)
Theorem unbound_tool_yields_empty (tc : tool_call) (arguments : pyval) :
  json_loads (fn_arguments (tc_function tc)) = Some arguments ->
  module_globals !! fn_name (tc_function tc) = None ->
  let announced := log_print ("Tool called: " +:+ fn_name (tc_function tc)) in
  (forall w, invoke tc w = (Ret (VDict []), announced w))
  /\ (forall w, handle_one tc w = (Ret (tool_message "{}" (tc_id tc)), announced w))
  /\ (forall rest acc w,
        for_tool_calls (tc :: rest) acc w
        = for_tool_calls rest (acc ++ [tool_message "{}" (tc_id tc)]) (announced w))
  /\ (forall msgs w c others before after fuel ms1 w1 ms2 w2,
        completions_create w (completion msgs) = ApiResponse (c :: others) ->
        finish_reason c = "tool_calls" ->
        tool_calls (message c) = Some (before ++ tc :: after) ->
        handled (log_request (completion msgs) w) before ms1 w1 ->
        handled (announced w1) after ms2 w2 ->
        chat_loop (S fuel) msgs w
        = chat_loop fuel
            ((msgs ++ [MObject (message c)])
             ++ ms1 ++ tool_message "{}" (tc_id tc) :: ms2) w2).
Proof.
  intros Hl Hg announced.
  assert (Hi : forall w, invoke tc w = (Ret (VDict []), announced w)).
  { intros w. unfold invoke, loads, bind. rewrite Hl. simpl.
    now rewrite (globals_get_absent _ Hg). }
  assert (Hh : forall w, handle_one tc w = (Ret (tool_message "{}" (tc_id tc)), announced w)).
  { intros w. now apply handle_one_Ret with (v := VDict []). }
  split_and!; auto.
  - intros rest acc w. simpl. now rewrite (bind_Ret _ _ _ _ _ (Hh w)).
  - intros msgs w c others before after fuel ms1 w1 ms2 w2 Hc Hf Ht H1 H2.
    simpl. rewrite (chat_round_tools _ _ _ _ Hc Hf), Ht. simpl.
    rewrite (for_tool_calls_app _ _ _ _ _ _ H1). simpl.
    rewrite (bind_Ret _ _ _ _ _ (Hh w1)).
    rewrite (for_tool_calls_handled _ _ _ _ _ H2). cbn [app].
    now rewrite <- (app_assoc ms1 [_] ms2).
Qed.


(** C3, as amended. What the transport reports through an HTTP status,
    failures included, is dropped: once [post] has returned, with whatever
    status, each handler returns [{"recorded": "ok"}]. An exception raised
    by [post] is caught nowhere: each handler ends with that exception, and
    so does the [chat] call whose response asks for either handler,
    wherever the invocation stands among the invocations of the response,
    the ones before it having been handled. *)
Theorem transport_exception_propagates (question email name notes : pyval) (w : world) :
  (forall status,
      post w (push_request (VStr (question_text question))) = Responded status ->
      record_unknown_question question w
      = (Ret recorded_ok, log_post (push_request (VStr (question_text question))) w))
  /\ (forall status,
        post w (push_request (VStr (details_text email name notes))) = Responded status ->
        record_user_details email name notes w
        = (Ret recorded_ok, log_post (push_request (VStr (details_text email name notes))) w))
  /\ (forall e,
        post w (push_request (VStr (question_text question))) = PostRaise e ->
        record_unknown_question question w
        = (Raise e, log_post (push_request (VStr (question_text question))) w))
  /\ (forall e,
        post w (push_request (VStr (details_text email name notes))) = PostRaise e ->
        record_user_details email name notes w
        = (Raise e, log_post (push_request (VStr (details_text email name notes))) w))
  /\ (forall e msgs w0 c others before tc after ms w1 fuel,
        completions_create w0 (completion msgs) = ApiResponse (c :: others) ->
        finish_reason c = "tool_calls" ->
        tool_calls (message c) = Some (before ++ tc :: after) ->
        handled (log_request (completion msgs) w0) before ms w1 ->
        fn_name (tc_function tc) = "record_unknown_question" ->
        json_loads (fn_arguments (tc_function tc)) = Some (VDict [("question", question)]) ->
        w = log_print "Tool called: record_unknown_question" w1 ->
        post w (push_request (VStr (question_text question))) = PostRaise e ->
        chat_loop (S fuel) msgs w0
        = Some (Raise e, log_post (push_request (VStr (question_text question))) w))
  /\ (forall e msgs w0 c others before tc after ms w1 fuel kw,
        completions_create w0 (completion msgs) = ApiResponse (c :: others) ->
        finish_reason c = "tool_calls" ->
        tool_calls (message c) = Some (before ++ tc :: after) ->
        handled (log_request (completion msgs) w0) before ms w1 ->
        fn_name (tc_function tc) = "record_user_details" ->
        json_loads (fn_arguments (tc_function tc)) = Some (VDict kw) ->
        accepts ["email"; "name"; "notes"] ["email"] kw = true ->
        arg "email" VNone kw = email ->
        arg "name" (VStr "Name not provided") kw = name ->
        arg "notes" (VStr "not provided") kw = notes ->
        w = log_print "Tool called: record_user_details" w1 ->
        post w (push_request (VStr (details_text email name notes))) = PostRaise e ->
        chat_loop (S fuel) msgs w0
        = Some (Raise e, log_post (push_request (VStr (details_text email name notes))) w)).
Proof.
  split_and!.
  - intros status Hp. unfold record_unknown_question, bind, push. now rewrite Hp.
  - intros status Hp. unfold record_user_details, bind, push. now rewrite Hp.
  - intros e Hp. unfold record_unknown_question, bind, push. now rewrite Hp.
  - intros e Hp. unfold record_user_details, bind, push. now rewrite Hp.
  - intros e msgs w0 c others before tc after ms w1 fuel Hc Hf Ht Hh Hn Hl Hw Hp.
    eapply chat_aborts_at; try eassumption.
    unfold invoke, loads. rewrite Hl, Hn.
    rewrite (globals_get_bound "record_unknown_question"
               (GFunction Frecord_unknown_question))
      by (apply source_binding_wins; unfold source_bindings; set_solver).
    unfold bind at 1 2. cbn [ret print run_tool truthy call call_function].
    change ("Tool called: " +:+ "record_unknown_question")
      with "Tool called: record_unknown_question".
    rewrite <- Hw.
    change (accepts ["question"] ["question"] [("question", question)]) with true.
    cbv iota. change (arg "question" VNone [("question", question)]) with question.
    unfold record_unknown_question, bind, push. now rewrite Hp.
  - intros e msgs w0 c others before tc after ms w1 fuel kw
           Hc Hf Ht Hh Hn Hl Ha He Hna Hno Hw Hp.
    eapply chat_aborts_at; try eassumption.
    unfold invoke, loads. rewrite Hl, Hn.
    rewrite (globals_get_bound "record_user_details" (GFunction Frecord_user_details))
      by (apply source_binding_wins; unfold source_bindings; set_solver).
    unfold bind at 1 2. cbn [ret print run_tool truthy].
    change (call (GFunction Frecord_user_details) (VDict kw))
      with (call_function Frecord_user_details kw).
    cbn [call_function].
    change ("Tool called: " +:+ "record_user_details")
      with "Tool called: record_user_details".
    rewrite <- Hw, Ha, He, Hna, Hno.
    unfold record_user_details, bind, push. now rewrite Hp.
Qed.

(** C2. When the response asks for [N] invocations and the tool-handling
    step returns, it returns exactly [N] tool messages: the invocations ran
    one after the other, and the message at each position is the dict with
    role [tool], the serialized result of the invocation at that position as
    its content, and that invocation's id. The loop then goes round with the
    list extended by the assistant's message followed by those [N]
    messages, and that extended list is what the next completion request
    carries. No completion request is issued in between. The tool-handling
    step fails to return only by an exception, with which [chat] ends: then
    there is no next completion request. *)
Theorem tool_results_follow_the_request (msgs : list msg) (w : world) (c : choice)
    (others : list choice) (tcs : list tool_call) (fuel : nat) :
  completions_create w (completion msgs) = ApiResponse (c :: others) ->
  finish_reason c = "tool_calls" ->
  tool_calls (message c) = Some tcs ->
  match handle_tool_call (Some tcs) (log_request (completion msgs) w) with
  | (Ret results, w') =>
      let extended := (msgs ++ [MObject (message c)]) ++ results in
      handled (log_request (completion msgs) w) tcs results w'
      /\ List.length results = List.length tcs
      /\ map tool_call_id_of results = map (fun tc => Some (VStr (tc_id tc))) tcs
      /\ Forall2 (fun tc m => exists v s wa wb,
                    invoke tc wa = (Ret v, wb) /\ json_dumps v = Some s
                    /\ m = tool_message s (tc_id tc)) tcs results
      /\ chat_loop (S fuel) msgs w = chat_loop fuel extended w'
      /\ requests w' = requests w ++ [completion msgs]
      /\ requests (chat_round extended w').2
         = requests w ++ [completion msgs; completion extended]
      /\ (exists values contents,
             invoked (log_request (completion msgs) w) tcs values w'
             /\ Forall2 (fun v s => json_dumps v = Some s) values contents
             /\ results
                = zip_with (fun tc s =>
                              MDict [("role", VStr "tool"); ("content", VStr s);
                                     ("tool_call_id", VStr (tc_id tc))]) tcs contents
             /\ map role_of results = map (fun _ => Some (VStr "tool")) tcs
             /\ map content_of results = map (fun s => Some (VStr s)) contents)
  | (Raise e, w') =>
      chat_loop (S fuel) msgs w = Some (Raise e, w')
      /\ requests w' = requests w ++ [completion msgs]
  end.
Proof.
  intros Hc Hf Ht.
  pose proof (quiet_handle_tool_call (Some tcs) (log_request (completion msgs) w)) as Hq.
  rewrite chat_loop_S, (chat_round_tools _ _ _ _ Hc Hf), Ht.
  destruct (handle_tool_call (Some tcs) _) as [[results|e] w'] eqn:Hr; simpl in Hq.
  - simpl in Hr. apply for_tool_calls_inv in Hr as (ms & Hh & Hms).
    simpl in Hms. subst ms.
    split_and!.
    + exact Hh.
    + eapply handled_length, Hh.
    + eapply handled_ids, Hh.
    + eapply handled_lookup, Hh.
    + reflexivity.
    + exact Hq.
    + rewrite chat_round_requests, Hq, <- app_assoc. reflexivity.
    + eapply handled_invoked, Hh.
  - split; [reflexivity | exact Hq].
Qed.

End Claims.

(** ** The scripted runtimes *)

Section Scripted.
Import Demo.
Variables (script : list api_outcome) (otherwise : api_outcome) (transport : post_outcome).

(** A round in which the model asks for [noop]: nothing is bound to that
    name, so the round prints the announcement and goes on. *)
Lemma noop_round msgs w :
  default otherwise (script !! List.length (requests w)) = asks [noop] ->
  @chat_round (scripted script otherwise transport) msgs w
  = (Ret (Again ((msgs ++ [MObject {| content := None; tool_calls := Some [noop] |}])
                 ++ [tool_message "{}" "call_0"])),
     log_print "Tool called: nosuch" (log_request (completion msgs) w)).
Proof.
  intros Hs.
  apply (@chat_round_handled (scripted script otherwise transport) msgs w
           {| finish_reason := "tool_calls";
              message := {| content := None; tool_calls := Some [noop] |} |} []
           [noop] [tool_message "{}" "call_0"]); try reflexivity.
  - exact Hs.
  - eapply (@handled_cons (scripted script otherwise transport) _ noop (VDict []) "{}");
      [|reflexivity|constructor].
    vm_compute. reflexivity.
Qed.

End Scripted.

Lemma rounds_exact (n : nat) : forall k msgs w,
  List.length (requests w) + k = n ->
  @chat_loop (Demo.rounds n) k msgs w = None
  /\ exists answer w', @chat_loop (Demo.rounds n) (S k) msgs w = Some (Ret answer, w').
Proof.
  induction k as [|k IH]; intros msgs w Hn.
  - split; [reflexivity|].
    assert (Hc : @completions_create (Demo.rounds n) w (completion msgs) = Demo.says "done").
    { simpl. rewrite lookup_ge_None_2; [reflexivity|]. rewrite length_replicate. lia. }
    eexists _, _. simpl.
    rewrite (@chat_round_stop (Demo.rounds n) msgs w _ _ Hc); [reflexivity|discriminate].
  - pose proof (noop_round (replicate n (Demo.asks [Demo.noop])) (Demo.says "done")
                  Demo.delivered msgs w) as Hr.
    rewrite lookup_replicate_2 in Hr by lia. specialize (Hr eq_refl).
    fold (Demo.rounds n) in Hr.
    rewrite (@chat_loop_S (Demo.rounds n) (S k)), (@chat_loop_S (Demo.rounds n) k), Hr.
    apply IH. simpl. rewrite length_app. simpl. lia.
Qed.

Lemma forever_diverges (fuel : nat) : forall msgs w,
  @chat_loop Demo.forever fuel msgs w = None.
Proof.
  induction fuel as [|fuel IH]; intros msgs w; [reflexivity|].
  pose proof (noop_round [] (Demo.asks [Demo.noop]) Demo.delivered msgs w eq_refl) as Hr.
  fold Demo.forever in Hr. rewrite chat_loop_S, Hr. apply IH.
Qed.

(** C8. Nothing bounds the number of rounds. [chat] returns exactly when
    some round is reached in which the completion API answers with a
    termination reason other than [tool_calls]; with a model that asks for
    tool calls in every answer it never returns. For every [n] there is a
    model with which [chat] is still in the loop after [n] rounds and
    returns in the next, and there is a model with which it stays in the
    loop for ever. *)
Theorem loop_has_no_cap :
  (forall (R : Runtime) self text history w,
      (exists fuel answer w', chat fuel self text history w = Some (Ret answer, w'))
      <-> (exists k msgs_k w_k c others,
              round_start k (initial_messages self text history) w = Some (msgs_k, w_k)
              /\ completions_create w_k (completion msgs_k) = ApiResponse (c :: others)
              /\ finish_reason c <> "tool_calls"))
  /\ (forall (R : Runtime) self text history w,
        (forall w1 r, exists c others,
            completions_create w1 r = ApiResponse (c :: others)
            /\ finish_reason c = "tool_calls") ->
        forall fuel answer w', chat fuel self text history w <> Some (Ret answer, w'))
  /\ (forall n self text history,
        @chat (Demo.rounds n) n self text history Demo.w0 = None
        /\ exists answer w',
            @chat (Demo.rounds n) (S n) self text history Demo.w0 = Some (Ret answer, w'))
  /\ (forall fuel self text history w,
        @chat Demo.forever fuel self text history w = None).
Proof.
  split_and!.
  - intros R self text history w. unfold chat. split.
    + intros (fuel & answer & w' & H). eapply chat_loop_stop_round, H.
    + intros (k & msgs_k & w_k & c & others & Hs & Hc & Hf).
      eexists (S k), _, _. eapply round_start_stop; eassumption.
  - intros R self text history w Hp fuel answer w'. unfold chat.
    now apply perpetual_never_returns.
  - intros n self text history. unfold chat. apply rounds_exact. reflexivity.
  - intros fuel self text history w. apply forever_diverges.
Qed.

(** ** The claims on concrete runs *)

(** C1 as stated fails. [push] is no registry tool, yet an invocation of it
    runs the notifier and reports [null], not the empty object; and an
    invocation of a name that nothing binds raises when its arguments do
    not deserialize, since the arguments are read before the name is looked
    up. *)
Lemma registry_miss_is_not_always_empty :
  in_registry "push" = false
  /\ @handle_one Demo.online (Demo.invocation "call_1" "push" Demo.args_text) Demo.w0
     = (Ret (tool_message "null" "call_1"),
        {| outbox := [{| url := "https://api.pushover.net/1/messages.json";
                         data := [("user", VStr "user-key"); ("token", VStr "app-token");
                                  ("message", VStr "hi")] |}];
           stdout := ["Tool called: push"]; requests := []; imported_calls := [] |})
  /\ tool_message "null" "call_1" <> tool_message "{}" "call_1"
  /\ in_registry "nosuch" = false
  /\ @handle_one Demo.online (Demo.invocation "call_2" "nosuch" Demo.args_broken) Demo.w0
     = (Raise JSONDecodeError, Demo.w0).
Proof.
  split_and!; try (vm_compute; reflexivity). discriminate.
Qed.

Lemma unbound_tool_yields_empty_witness :
  @json_loads Demo.online Demo.args_empty = Some (VDict [])
  /\ @module_globals Demo.online !! "nosuch" = None
  /\ forall w, @handle_one Demo.online (Demo.invocation "call_2" "nosuch" Demo.args_empty) w
               = (Ret (tool_message "{}" "call_2"), log_print "Tool called: nosuch" w).
Proof.
  split; [reflexivity|]. split; [vm_compute; reflexivity|].
  apply (@unbound_tool_yields_empty Demo.online
           (Demo.invocation "call_2" "nosuch" Demo.args_empty) (VDict [])).
  - reflexivity.
  - vm_compute. reflexivity.
Defined.

(** C3 as stated fails. With a notification service that cannot be
    reached, neither handler returns its success result: the transport's
    exception leaves the handler, and a [chat] call whose first response
    asks for the question to be recorded ends with that exception although
    the model would have answered in the next round. *)
Lemma unreachable_transport_aborts_chat :
  @post Demo.offline Demo.w0 (@push_request Demo.offline
                                (VStr "Recording What is your favorite color?"))
  = PostRaise (External "ConnectionError")
  /\ (@call Demo.offline (@globals_get Demo.offline "record_unknown_question")
        (VDict [("question", VStr "What is your favorite color?")]) Demo.w0).1
     = Raise (External "ConnectionError")
  /\ (@call Demo.offline (@globals_get Demo.offline "record_user_details")
        (VDict [("email", VStr "a@b.com")]) Demo.w0).1
     = Raise (External "ConnectionError")
  /\ fst <$> @chat Demo.offline 2 Demo.me "hello" [] Demo.w0
     = Some (Raise (External "ConnectionError")).
Proof.
  split_and!; vm_compute; reflexivity.
Qed.


Lemma tool_results_follow_the_request_witness :
  let asked := [Demo.invocation "call_1" "record_user_details" Demo.args_email;
                Demo.invocation "call_2" "record_unknown_question" Demo.args_question] in
  let ok := "{" +:+ dq +:+ "recorded" +:+ dq +:+ ": " +:+ dq +:+ "ok" +:+ dq +:+ "}" in
  let results := [tool_message ok "call_1"; tool_message ok "call_2"] in
  let after :=
    {| outbox := [@push_request Demo.two_tools
                    (VStr "Recording Name not provided with email a@b.com and notes not provided");
                  @push_request Demo.two_tools
                    (VStr "Recording What is your favorite color?")];
       stdout := ["Tool called: record_user_details"; "Tool called: record_unknown_question"];
       requests := [completion [user_message "hello"]];
       imported_calls := [] |} in
  @handle_tool_call Demo.two_tools (Some asked)
    (log_request (completion [user_message "hello"]) Demo.w0) = (Ret results, after)
  /\ List.length results = List.length asked
  /\ map tool_call_id_of results = map (fun tc => Some (VStr (tc_id tc))) asked
  /\ @chat_loop Demo.two_tools 1 [user_message "hello"] Demo.w0
     = @chat_loop Demo.two_tools 0
         (([user_message "hello"]
           ++ [MObject {| content := None; tool_calls := Some asked |}]) ++ results) after
  /\ map role_of results = [Some (VStr "tool"); Some (VStr "tool")]
  /\ (exists contents,
         map content_of results = map (fun s => Some (VStr s)) contents
         /\ Forall2 (fun v s => json_dumps v = Some s)
              [VDict [("recorded", VStr "ok")]; VDict [("recorded", VStr "ok")]] contents)
  /\ results
     = [MDict [("role", VStr "tool"); ("content", VStr ok); ("tool_call_id", VStr "call_1")];
        MDict [("role", VStr "tool"); ("content", VStr ok); ("tool_call_id", VStr "call_2")]].
Proof.
  intros asked ok results after.
  assert (Hr : @handle_tool_call Demo.two_tools (Some asked)
                 (log_request (completion [user_message "hello"]) Demo.w0)
               = (Ret results, after)) by (vm_compute; reflexivity).
  split; [exact Hr|].
  pose proof (@tool_results_follow_the_request Demo.two_tools [user_message "hello"] Demo.w0
                {| finish_reason := "tool_calls";
                   message := {| content := None; tool_calls := Some asked |} |}
                [] asked 0 eq_refl eq_refl eq_refl) as H.
  rewrite Hr in H.
  destruct H as (_ & Hlen & Hids & _ & Hloop & _ & _
                 & values & contents & Hinv & Hdumps & _ & Hroles & Hcontents).
  split; [exact Hlen|]. split; [exact Hids|]. split; [exact Hloop|].
  split; [exact Hroles|]. split; [|reflexivity].
  exists contents. split; [exact Hcontents|].
  assert (values = [VDict [("recorded", VStr "ok")]; VDict [("recorded", VStr "ok")]])
    as <-; [|exact Hdumps].
  inversion Hinv as [|? ? a1 v1 w1 ? vs1 ? Hl1 Hi1 Hrest1]; subst.
  inversion Hrest1 as [|? ? a2 v2 w2 ? vs2 ? Hl2 Hi2 Hrest2]; subst.
  inversion Hrest2; subst.
  vm_compute in Hl1. inversion Hl1; subst.
  vm_compute in Hi1. inversion Hi1; subst.
  vm_compute in Hl2. inversion Hl2; subst.
  vm_compute in Hi2. inversion Hi2; subst.
  reflexivity.
Defined.

Lemma first_stop_returns_text_witness :
  exists w', @chat Demo.online 1 Demo.me "hello" [] Demo.w0 = Some (Ret (Some "done"), w')
             /\ outbox w' = [] /\ stdout w' = [].
Proof.
  destruct (@first_stop_returns_text Demo.online Demo.me "hello" [] Demo.w0
              {| finish_reason := "stop";
                 message := {| content := Some "done"; tool_calls := None |} |} [] 0)
    as (w' & Hchat & Hout & Hstd & _).
  - reflexivity.
  - discriminate.
  - exists w'. split; [exact Hchat|]. split; [exact Hout | exact Hstd].
Defined.

Lemma record_unknown_question_notifies_witness :
  exists w',
    @call Demo.online (@globals_get Demo.online "record_unknown_question")
      (VDict [("question", VStr "What is your favorite color?")]) Demo.w0
    = (Ret (VDict [("recorded", VStr "ok")]), w')
    /\ outbox w' = [@push_request Demo.online (VStr "Recording What is your favorite color?")].
Proof.
  destruct (@record_unknown_question_notifies Demo.online
              "What is your favorite color?" Demo.w0 200)
    as (w' & Hcall & Hout & _).
  - reflexivity.
  - exists w'. split; [exact Hcall | exact Hout].
Defined.


Lemma malformed_arguments_abort_witness :
  @json_loads Demo.online Demo.args_broken = None
  /\ forall w, @handle_one Demo.online
                 (Demo.invocation "call_1" "record_unknown_question" Demo.args_broken) w
               = (Raise JSONDecodeError, w).
Proof.
  split; [reflexivity|].
  apply (@malformed_arguments_abort Demo.online
           (Demo.invocation "call_1" "record_unknown_question" Demo.args_broken)).
  reflexivity.
Defined.

Lemma transport_exception_propagates_witness :
  @record_unknown_question Demo.failing (VStr "What is your favorite color?") Demo.w0
  = (Ret recorded_ok,
     log_post (@push_request Demo.failing (VStr "Recording What is your favorite color?"))
       Demo.w0)
  /\ @chat_loop Demo.offline 1 [user_message "hello"] Demo.w0
     = Some (Raise (External "ConnectionError"),
             {| outbox := [@push_request Demo.offline
                             (VStr "Recording What is your favorite color?")];
                stdout := ["Tool called: record_unknown_question"];
                requests := [completion [user_message "hello"]];
                imported_calls := [] |})
  /\ @chat_loop Demo.offline_later 1 [user_message "hello"] Demo.w0
     = Some (Raise (External "ConnectionError"),
             {| outbox := [@push_request Demo.offline_later
                             (VStr "Recording Name not provided with email a@b.com and notes not provided")];
                stdout := ["Tool called: nosuch"; "Tool called: record_user_details"];
                requests := [completion [user_message "hello"]];
                imported_calls := [] |}).
Proof.
  split; [|split].
  - refine (proj1 (@transport_exception_propagates Demo.failing
                     (VStr "What is your favorite color?") VNone VNone VNone Demo.w0)
              500 _).
    reflexivity.
  - refine (proj1 (proj2 (proj2 (proj2 (proj2
      (@transport_exception_propagates Demo.offline
         (VStr "What is your favorite color?") VNone VNone VNone
         (log_print "Tool called: record_unknown_question"
            (log_request (completion [user_message "hello"]) Demo.w0)))))))
      (External "ConnectionError") [user_message "hello"] Demo.w0
      {| finish_reason := "tool_calls";
         message := {| content := None;
                       tool_calls := Some [Demo.invocation "call_1" "record_unknown_question"
                                             Demo.args_question] |} |}
      [] [] (Demo.invocation "call_1" "record_unknown_question" Demo.args_question) []
      [] (log_request (completion [user_message "hello"]) Demo.w0) 0
      _ _ _ _ _ _ _ _); try reflexivity.
    constructor.
  - refine (proj2 (proj2 (proj2 (proj2 (proj2
      (@transport_exception_propagates Demo.offline_later
         VNone (VStr "a@b.com") (VStr "Name not provided") (VStr "not provided")
         (log_print "Tool called: record_user_details"
            (log_print "Tool called: nosuch"
               (log_request (completion [user_message "hello"]) Demo.w0))))))))
      (External "ConnectionError") [user_message "hello"] Demo.w0
      {| finish_reason := "tool_calls";
         message := {| content := None;
                       tool_calls := Some [Demo.noop;
                                           Demo.invocation "call_1" "record_user_details"
                                             Demo.args_email] |} |}
      [] [Demo.noop] (Demo.invocation "call_1" "record_user_details" Demo.args_email) []
      [tool_message "{}" "call_0"]
      (log_print "Tool called: nosuch"
         (log_request (completion [user_message "hello"]) Demo.w0)) 0
      [("email", VStr "a@b.com")]
      _ _ _ _ _ _ _ _ _ _ _ _); try reflexivity.
    eapply (@handled_cons Demo.offline_later _ Demo.noop (VDict []) "{}");
      [vm_compute; reflexivity | reflexivity | constructor].
Defined.


Lemma loop_has_no_cap_witness :
  @chat Demo.forever 3 Demo.me "hello" [] Demo.w0 <> Some (Ret (Some "done"), Demo.w0)
  /\ @chat Demo.forever 3 Demo.me "hello" [] Demo.w0 = None.
Proof.
  destruct loop_has_no_cap as (_ & Hnever & _ & Hforever).
  split; [|apply Hforever].
  apply (Hnever Demo.forever). intros w1 r.
  exists {| finish_reason := "tool_calls";
            message := {| content := None; tool_calls := Some [Demo.noop] |} |}, [].
  split; reflexivity.
Defined.

Lemma chat_builds_messages_witness :
  @initial_messages Demo.me "hello" []
  = [MDict [("role", VStr "system"); ("content", VStr (system_prompt Demo.me))];
     MDict [("role", VStr "user"); ("content", VStr "hello")]]
  /\ occurs_in "I build things." (system_prompt Demo.me)
  /\ exists later,
       requests (log_request (completion (initial_messages Demo.me "hello" [])) Demo.w0)
       = completion (initial_messages Demo.me "hello" []) :: later.
Proof.
  destruct (@chat_builds_messages Demo.online Demo.me "hello" [] Demo.w0 1)
    as (Hbuilt & _ & Hsummary & _ & _ & _ & Hreq & _).
  split; [exact Hbuilt|]. split; [exact Hsummary|].
  destruct (Hreq (Ret (Some "done"))
              (log_request (completion (initial_messages Demo.me "hello" [])) Demo.w0)
              eq_refl) as (later & Hl & _).
  exists later. exact Hl.
Defined.

(** ** Further properties: the constructor *)

Section Constructor.
Context {D : Documents}.

Lemma for_pages_texts (texts : list string) : forall linkedin,
  for_pages (map Ret texts) linkedin = Ret (linkedin +:+ join_texts texts).
Proof.
  induction texts as [|t texts IH]; intros linkedin; simpl.
  - now rewrite append_nil_r.
  - rewrite IH. destruct (String.eqb t EmptyString) eqn:Ht; simpl.
    + apply String.eqb_eq in Ht. now subst t.
    + now rewrite append_assoc.
Qed.

Lemma for_pages_inv (pages : list (outcome string)) : forall linkedin result,
  for_pages pages linkedin = Ret result -> exists texts, pages = map Ret texts.
Proof.
  induction pages as [|[t|e] pages IH]; intros linkedin result H; simpl in H.
  - now exists [].
  - apply IH in H as (texts & ->). now exists (t :: texts).
  - discriminate.
Qed.

Lemma for_pages_raise (texts : list string) e rest linkedin :
  for_pages (map Ret texts ++ Raise e :: rest) linkedin = Raise e.
Proof.
  revert linkedin. induction texts as [|t texts IH]; intros linkedin; simpl; auto.
Qed.

Lemma occurs_in_trans a b c : occurs_in a b -> occurs_in b c -> occurs_in a c.
Proof.
  intros (p & q & ->) (p' & q' & ->).
  exists (p' +:+ p), (q +:+ q'). now rewrite !append_assoc.
Qed.

Lemma occurs_in_join t (texts : list string) : t ∈ texts -> occurs_in t (join_texts texts).
Proof.
  induction 1 as [t texts|t u texts _ IH]; simpl.
  - apply occurs_in_head.
  - now apply occurs_in_app_r.
Qed.

Lemma Me_init_inv (n pdf txt : string) (m : Me) :
  Me_init n pdf txt = Ret m ->
  new_client = None
  /\ exists texts body,
       pdf_pages pdf = Ret (map Ret texts)
       /\ read_text txt = Ret body
       /\ m = {| name := n; linkedin := join_texts texts; summary := body |}.
Proof.
  unfold Me_init.
  destruct new_client as [e|]; [discriminate|].
  destruct (pdf_pages pdf) as [pages|e]; [|discriminate].
  destruct (for_pages pages EmptyString) as [l|e] eqn:Hp; [|discriminate].
  destruct (read_text txt) as [body|e]; [|discriminate].
  intros H. inversion H; subst. split; [reflexivity|].
  destruct (for_pages_inv _ _ _ Hp) as (texts & ->).
  rewrite for_pages_texts in Hp. inversion Hp; subst.
  exists texts, body. auto.
Qed.

(** X1. The constructor yields an instance exactly when the client can be
    made, the PDF opens, every page gives its text and the summary file can
    be read. The instance then holds the name it was given, the texts of
    all pages joined in page order as the background (a page without text
    adds nothing) and the content of the summary file. *)
Theorem Me_init_reads_documents (n pdf txt : string) (m : Me) :
  Me_init n pdf txt = Ret m <->
  new_client = None
  /\ exists texts body,
       pdf_pages pdf = Ret (map Ret texts)
       /\ read_text txt = Ret body
       /\ m = {| name := n; linkedin := join_texts texts; summary := body |}.
Proof.
  split; [apply Me_init_inv|].
  intros (Hc & texts & body & Hp & Hb & ->).
  unfold Me_init. rewrite Hc, Hp, for_pages_texts, Hb. reflexivity.
Qed.

(** X2. The constructor gives up at the first page whose text cannot be
    extracted: it ends with that page's exception whatever the later pages
    and the summary file hold, and no instance is made. *)
Theorem Me_init_stops_at_bad_page (n pdf txt : string) (texts : list string)
    (e : exn) (rest : list (outcome string)) :
  new_client = None ->
  pdf_pages pdf = Ret (map Ret texts ++ Raise e :: rest) ->
  Me_init n pdf txt = Raise e.
Proof.
  intros Hc Hp. unfold Me_init. rewrite Hc, Hp. now rewrite for_pages_raise.
Qed.

(** X3. Whatever the documents hold reaches the model: the prompt of a
    constructed instance contains the text of every page of the PDF, the
    content of the summary file and the name. *)
Theorem documents_reach_the_prompt (n pdf txt : string) (m : Me)
    (texts : list string) (body : string) :
  Me_init n pdf txt = Ret m ->
  pdf_pages pdf = Ret (map Ret texts) ->
  read_text txt = Ret body ->
  Forall (fun t => occurs_in t (system_prompt m)) texts
  /\ occurs_in body (system_prompt m)
  /\ occurs_in n (system_prompt m).
Proof.
  intros Hm Hp Hb.
  apply Me_init_inv in Hm as (_ & texts' & body' & Hp' & Hb' & ->).
  rewrite Hp in Hp'. rewrite Hb in Hb'.
  inversion Hb'; subst body'.
  assert (texts' = texts) as ->.
  { inversion Hp' as [Hmap]. clear -Hmap.
    revert texts' Hmap. induction texts as [|t texts IH]; intros [|t' texts'] H;
      simpl in H; try discriminate; [reflexivity|].
    inversion H; subst. f_equal. now apply IH. }
  split_and!.
  - apply Forall_forall. intros t Ht.
    eapply occurs_in_trans; [apply occurs_in_join, Ht|].
    unfold system_prompt. simpl. find_occurrence.
  - unfold system_prompt. simpl. find_occurrence.
  - unfold system_prompt. simpl. find_occurrence.
Qed.

End Constructor.

Lemma Me_init_reads_documents_witness :
  @Me_init Demo.papers "Carlos Bazaga" "me/linkedin.pdf" "me/summary.txt" = Ret Demo.me.
Proof.
  apply (@Me_init_reads_documents Demo.papers). split; [reflexivity|].
  exists ["Software "; EmptyString; "engineer."], "I build things.".
  split_and!; reflexivity.
Defined.

Lemma Me_init_stops_at_bad_page_witness :
  @Me_init {| new_client := None;
              pdf_pages := fun _ => Ret [Ret "Software "; Raise (External "PdfReadError");
                                         Ret "engineer."];
              read_text := fun _ => Ret "I build things." |}
    "Carlos Bazaga" "me/linkedin.pdf" "me/summary.txt"
  = Raise (External "PdfReadError").
Proof.
  apply (@Me_init_stops_at_bad_page _ _ _ _ ["Software "] _ [Ret "engineer."]);
    reflexivity.
Defined.

Lemma documents_reach_the_prompt_witness :
  occurs_in "engineer." (system_prompt Demo.me)
  /\ occurs_in "I build things." (system_prompt Demo.me).
Proof.
  destruct (@documents_reach_the_prompt Demo.papers "Carlos Bazaga" "me/linkedin.pdf"
              "me/summary.txt" Demo.me ["Software "; EmptyString; "engineer."]
              "I build things." eq_refl eq_refl eq_refl) as (Htexts & Hbody & _).
  split; [|exact Hbody].
  apply (proj1 (Forall_forall _ _) Htexts). set_solver.
Defined.

(** ** Further properties: dispatch and handlers *)

Section Dispatch.
Context {R : Runtime}.

(** Every name the module binds, the block under the main guard included
    when it runs, is bound once and keeps its object. *)
Lemma binding_wins k v :
  (k, v) ∈ source_bindings ++ (if is_main then main_bindings else []) ->
  module_globals !! k = Some v.
Proof.
  intros Hin. unfold module_globals. rewrite foldl_app.
  destruct is_main; unfold source_bindings, main_bindings in *; simpl in Hin;
    repeat (apply elem_of_cons in Hin as [Hin|Hin];
      [inversion Hin; subst; clear Hin;
       cbn [foldl]; unfold assign; cbn [fst snd];
       repeat (rewrite lookup_insert_ne by discriminate); now apply lookup_insert_eq|]);
    inversion Hin.
Qed.

Lemma registry_name_cases n :
  in_registry n = true -> n = "record_user_details" \/ n = "record_unknown_question".
Proof.
  unfold in_registry. intros H. apply bool_decide_eq_true in H.
  change registry_names with ["record_user_details"; "record_unknown_question"] in H.
  apply elem_of_cons in H as [H|H]; [now left|].
  apply elem_of_cons in H as [H|H]; [now right|]. inversion H.
Qed.

Lemma tool_entry_cases entry n :
  entry ∈ tool_entries -> schema_name entry = Some n ->
  (n = "record_user_details"
   /\ schema_properties entry = ["email"; "name"; "notes"]
   /\ schema_required entry = ["email"])
  \/ (n = "record_unknown_question"
      /\ schema_properties entry = ["question"]
      /\ schema_required entry = ["question"]).
Proof.
  unfold tool_entries, tools. intros Hin Hn.
  apply elem_of_cons in Hin as [->|Hin]; [|apply elem_of_cons in Hin as [->|Hin]].
  - left. vm_compute in Hn. inversion Hn. auto.
  - right. vm_compute in Hn. inversion Hn. auto.
  - inversion Hin.
Qed.

Lemma get_record_user_details :
  globals_get "record_user_details" = GFunction Frecord_user_details.
Proof.
  apply globals_get_bound, source_binding_wins. unfold source_bindings. set_solver.
Qed.

Lemma get_record_unknown_question :
  globals_get "record_unknown_question" = GFunction Frecord_unknown_question.
Proof.
  apply globals_get_bound, source_binding_wins. unfold source_bindings. set_solver.
Qed.


(** What a handler does once its arguments are bound. *)
Lemma notify_then_ok text w :
  bind (push (VStr text)) (fun _ => ret recorded_ok) w
  = (match post w (push_request (VStr text)) with
     | Responded _ => Ret recorded_ok
     | PostRaise e => Raise e
     end, log_post (push_request (VStr text)) w).
Proof. unfold bind, push. now destruct (post w _). Qed.

(** X4. The two handlers take exactly the argument objects whose keys
    conform to their schema in [tools]: given an object with an undeclared
    key or without a required one, the call raises [TypeError] and nothing
    is sent; given a conforming object, one notification is handed to the
    transport and the call ends as the transport does, with
    [{"recorded": "ok"}] when it answers. *)
Theorem schema_decides_acceptance (entry : pyval) (tool_name : string) (kw : kwargs)
    (w : world) :
  entry ∈ tool_entries ->
  schema_name entry = Some tool_name ->
  (conforms entry kw = false ->
   call (globals_get tool_name) (VDict kw) w
   = (Raise (TypeError "arguments do not match the signature"), w))
  /\ (conforms entry kw = true ->
      exists text,
        call (globals_get tool_name) (VDict kw) w
        = (match post w (push_request (VStr text)) with
           | Responded _ => Ret recorded_ok
           | PostRaise e => Raise e
           end, log_post (push_request (VStr text)) w)).
Proof.
  intros Hin Hn. unfold conforms.
  destruct (tool_entry_cases _ _ Hin Hn) as [(-> & -> & ->)|(-> & -> & ->)].
  - rewrite get_record_user_details. cbn [call call_function].
    fold (accepts ["email"; "name"; "notes"] ["email"] kw).
    split; intros ->; [reflexivity|].
    eexists. unfold record_user_details. apply notify_then_ok.
  - rewrite get_record_unknown_question. cbn [call call_function].
    fold (accepts ["question"] ["question"] kw).
    split; intros ->; [reflexivity|].
    eexists. unfold record_unknown_question. apply notify_then_ok.
Qed.

(** An iteration for a registry tool that yields a result yields
    [{"recorded": "ok"}] and has sent one notification. *)
Lemma invoke_registry tc w v w1 :
  in_registry (fn_name (tc_function tc)) = true ->
  invoke tc w = (Ret v, w1) ->
  v = recorded_ok
  /\ stdout w1 = stdout w ++ [announcement tc]
  /\ exists text, outbox w1 = outbox w ++ [push_request (VStr text)].
Proof.
  intros Hn. unfold invoke, loads, announcement.
  destruct (json_loads (fn_arguments (tc_function tc))) as [arguments|];
    [|discriminate].
  unfold bind at 1 2. cbn [ret print].
  destruct (registry_name_cases _ Hn) as [-> | ->].
  - rewrite get_record_user_details. cbn [run_tool truthy call].
    destruct arguments; try discriminate.
    change (call (GFunction ?f) (VDict ?kw)) with (call_function f kw).
    cbn [call_function]. destruct (accepts _ _ _); [|discriminate].
    unfold record_user_details. rewrite notify_then_ok.
    destruct (post _ _); [|discriminate].
    intros H. inversion H; subst. simpl. eauto.
  - rewrite get_record_unknown_question. cbn [run_tool truthy call].
    destruct arguments; try discriminate.
    change (call (GFunction ?f) (VDict ?kw)) with (call_function f kw).
    cbn [call_function]. destruct (accepts _ _ _); [|discriminate].
    unfold record_unknown_question. rewrite notify_then_ok.
    destruct (post _ _); [|discriminate].
    intros H. inversion H; subst. simpl. eauto.
Qed.

(** X5. When every invocation of a response names a registry tool and the
    tool-handling step returns, each tool message carries
    [{"recorded": "ok"}], whatever was recorded, and exactly one
    notification per invocation has been handed to the transport. *)
Theorem registry_tools_report_ok (tcs : list tool_call) (w : world)
    (results : list msg) (w' : world) :
  Forall (fun tc => in_registry (fn_name (tc_function tc)) = true) tcs ->
  handle_tool_call (Some tcs) w = (Ret results, w') ->
  results = map (fun tc => tool_message
                   ("{" +:+ dq +:+ "recorded" +:+ dq +:+ ": " +:+ dq +:+ "ok" +:+ dq +:+ "}")
                   (tc_id tc)) tcs
  /\ (exists texts,
         List.length texts = List.length tcs
         /\ outbox w' = outbox w ++ map (fun t => push_request (VStr t)) texts)
  /\ results
     = map (fun tc =>
              MDict [("role", VStr "tool");
                     ("content",
                      VStr ("{" +:+ dq +:+ "recorded" +:+ dq +:+ ": "
                            +:+ dq +:+ "ok" +:+ dq +:+ "}"));
                     ("tool_call_id", VStr (tc_id tc))]) tcs.
Proof.
  intros Hreg Hr. simpl in Hr.
  apply for_tool_calls_inv in Hr as (ms & Hh & ->). simpl.
  enough (ms = map (fun tc => tool_message
                      ("{" +:+ dq +:+ "recorded" +:+ dq +:+ ": " +:+ dq +:+ "ok"
                       +:+ dq +:+ "}") (tc_id tc)) tcs
          /\ exists texts,
               List.length texts = List.length tcs
               /\ outbox w' = outbox w ++ map (fun t => push_request (VStr t)) texts)
    as (Hms & Htexts) by (split; [exact Hms | split; [exact Htexts | exact Hms]]).
  induction Hh as [w|w tc v s w1 tcs ms w2 Hi Hs Hh IH].
  - split; [reflexivity|]. exists []. split; [reflexivity|]. simpl.
    now rewrite app_nil_r.
  - inversion Hreg as [|? ? Htc Hrest]; subst.
    destruct (invoke_registry _ _ _ _ Htc Hi) as (-> & _ & text & Ho).
    destruct (IH Hrest) as (-> & texts & Hlen & Hout).
    vm_compute in Hs. inversion Hs; subst s.
    split; [reflexivity|].
    exists (text :: texts). split; [simpl; congruence|].
    rewrite Hout, Ho, <- app_assoc. reflexivity.
Qed.

(** *** What is printed *)

Lemma stdout_push text w : stdout (push text w).2 = stdout w.
Proof. unfold push. now destruct (post w _). Qed.

Lemma stdout_call_function f kw w : stdout (call_function f kw w).2 = stdout w.
Proof.
  destruct f; cbn [call_function]; destruct (accepts _ _ _); try reflexivity.
  - apply stdout_push.
  - unfold record_user_details. now rewrite notify_then_ok.
  - unfold record_unknown_question. now rewrite notify_then_ok.
Qed.

Lemma stdout_call tool arguments w : stdout (call tool arguments w).2 = stdout w.
Proof.
  destruct arguments; try reflexivity.
  destruct tool; try reflexivity.
  - apply stdout_call_function.
  - cbn [call]. destruct (accepts _ _ _); [|reflexivity].
    unfold bind, call_imported. now destruct (imported _ _ _).
Qed.

Lemma stdout_run_tool tool arguments w :
  stdout (run_tool tool arguments w).2 = stdout w.
Proof. unfold run_tool. destruct (truthy tool); [apply stdout_call | reflexivity]. Qed.

(** An iteration prints its announcement, unless its arguments do not
    deserialize, and nothing else. *)
Lemma handle_one_stdout tc w :
  stdout (handle_one tc w).2
  = stdout w ++ match json_loads (fn_arguments (tc_function tc)) with
                | Some _ => [announcement tc]
                | None => []
                end.
Proof.
  unfold handle_one, invoke, loads.
  destruct (json_loads (fn_arguments (tc_function tc))) as [arguments|].
  - unfold bind at 2 3. cbn [ret print].
    pose proof (stdout_run_tool (globals_get (fn_name (tc_function tc))) arguments
                  (log_print ("Tool called: " +:+ fn_name (tc_function tc)) w)) as Hs.
    unfold bind. destruct (run_tool _ _ _) as [[v|e] w1]; simpl in *.
    + unfold dumps. destruct (json_dumps v); exact Hs.
    + exact Hs.
  - simpl. now rewrite app_nil_r.
Qed.

Lemma handled_stdout w tcs ms w' :
  handled w tcs ms w' -> stdout w' = stdout w ++ map announcement tcs.
Proof.
  induction 1 as [w|w tc v s w1 tcs ms w2 Hi Hs _ IH]; simpl.
  - now rewrite app_nil_r.
  - pose proof (handle_one_stdout tc w) as Ho.
    rewrite (handle_one_Ret _ _ _ _ _ Hi Hs) in Ho. simpl in Ho.
    apply invoke_Ret_inv in Hi as (arguments & Hl & _). rewrite Hl in Ho.
    rewrite IH, Ho, <- app_assoc. reflexivity.
Qed.

(** A tool-handling step that raises has handled the invocations before
    some invocation and raised in that one. *)
Lemma for_tool_calls_Raise_inv (tcs : list tool_call) : forall (acc : list msg) w e w',
  for_tool_calls tcs acc w = (Raise e, w') ->
  exists before tc after ms w1,
    tcs = before ++ tc :: after
    /\ handled w before ms w1
    /\ handle_one tc w1 = (Raise e, w').
Proof.
  induction tcs as [|tc tcs IH]; intros acc w e w' H; simpl in H; [discriminate|].
  unfold bind in H. destruct (handle_one tc w) as [[m|e1] w1] eqn:H1.
  - apply IH in H as (before & tc' & after & ms & w2 & -> & Hh & Hr).
    apply handle_one_inv in H1 as (v & s & Hi & Hs & ->).
    exists (tc :: before), tc', after, (tool_message s (tc_id tc) :: ms), w2.
    split; [reflexivity|]. split; [econstructor; eassumption | exact Hr].
  - inversion H; subst. exists [], tc, tcs, [], w.
    split; [reflexivity|]. split; [constructor | exact H1].
Qed.

(** X6. The tool-handling step prints one line per invocation it started
    on, [Tool called: ] followed by the requested name, in the order of the
    invocations, and the module prints nothing else there. When the step
    returns, these are the lines of all invocations. When it raises, it has
    handled the invocations before some invocation and raised in that one:
    the lines are those of the invocations before it, followed by its own
    line if its arguments deserialized and by nothing if they did not. *)
Theorem announcements_follow_invocations (tcs : list tool_call) (w : world)
    (o : outcome (list msg)) (w' : world) :
  handle_tool_call (Some tcs) w = (o, w') ->
  match o with
  | Ret _ => stdout w' = stdout w ++ map announcement tcs
  | Raise e =>
      exists before tc after ms w1,
        tcs = before ++ tc :: after
        /\ handled w before ms w1
        /\ handle_one tc w1 = (Raise e, w')
        /\ stdout w'
           = stdout w ++ map announcement before
             ++ match json_loads (fn_arguments (tc_function tc)) with
                | Some _ => [announcement tc]
                | None => []
                end
  end
  /\ (forall before tc after ms w1 e w2,
        tcs = before ++ tc :: after ->
        handled w before ms w1 ->
        handle_one tc w1 = (Raise e, w2) ->
        o = Raise e /\ w' = w2
        /\ stdout w2
           = stdout w ++ map announcement before
             ++ match json_loads (fn_arguments (tc_function tc)) with
                | Some _ => [announcement tc]
                | None => []
                end).
Proof.
  intros H. simpl in H.
  assert (Hat : forall before tc ms w1 e w2,
             handled w before ms w1 -> handle_one tc w1 = (Raise e, w2) ->
             stdout w2
             = stdout w ++ map announcement before
               ++ match json_loads (fn_arguments (tc_function tc)) with
                  | Some _ => [announcement tc]
                  | None => []
                  end).
  { intros before tc ms w1 e w2 Hh Hr.
    pose proof (handle_one_stdout tc w1) as Ho. rewrite Hr in Ho. simpl in Ho.
    rewrite Ho, (handled_stdout _ _ _ _ Hh), <- app_assoc. reflexivity. }
  split.
  - destruct o as [results|e].
    + apply for_tool_calls_inv in H as (ms & Hh & _).
      apply (handled_stdout _ _ _ _ Hh).
    + apply for_tool_calls_Raise_inv in H as (before & tc & after & ms & w1 & -> & Hh & Hr).
      exists before, tc, after, ms, w1. split_and!; auto. eapply Hat; eassumption.
  - intros before tc after ms w1 e w2 -> Hh Hr.
    rewrite (for_tool_calls_app _ _ _ _ _ _ Hh) in H. simpl in H.
    rewrite (bind_Raise _ _ _ _ _ Hr) in H. inversion H; subst.
    split_and!; auto. eapply Hat; eassumption.
Qed.

Lemma bindings_truthy k g :
  (k, g) ∈ source_bindings ++ (if is_main then main_bindings else []) ->
  truthy g = true.
Proof.
  intros Hin.
  assert (Hall : Forall (fun b => truthy b.2 = true) (source_bindings ++ main_bindings))
    by repeat constructor.
  assert (Hsub : (k, g) ∈ source_bindings ++ main_bindings).
  { apply elem_of_app in Hin as [Hin|Hin]; apply elem_of_app; [now left|].
    destruct is_main; [now right | inversion Hin]. }
  exact (proj1 (Forall_forall _ _) Hall _ Hsub).
Qed.

(** X7. The names the module binds to a module or to data, [json], [os],
    [tools], the two schema dicts and [__doc__], and [name], [cv_pdf] and
    [summary_txt] when the file runs as a script, are looked up like tools,
    and an invocation of one of them always raises: [TypeError] after its
    announcement when its arguments deserialize, to whatever value, and the
    deserialization error before any announcement when they do not. *)
Theorem data_and_modules_are_not_callable (tc : tool_call) (k : string) (g : gobj)
    (w : world) :
  (k, g) ∈ source_bindings ++ (if is_main then main_bindings else []) ->
  callable g = false ->
  fn_name (tc_function tc) = k ->
  match json_loads (fn_arguments (tc_function tc)) with
  | Some _ =>
      exists what,
        invoke tc w = (Raise (TypeError what), log_print (announcement tc) w)
  | None => invoke tc w = (Raise JSONDecodeError, w)
  end
  /\ (filter (fun b => negb (callable b.2)) source_bindings).*1
     = ["__doc__"; "json"; "os"; "record_user_details_json";
        "record_unknown_question_json"; "tools"]
  /\ (filter (fun b => negb (callable b.2)) main_bindings).*1
     = ["name"; "cv_pdf"; "summary_txt"].
Proof.
  intros Hin Hc Hn. split; [|split; reflexivity].
  pose proof (bindings_truthy _ _ Hin) as Ht.
  apply binding_wins in Hin.
  unfold invoke, loads, announcement.
  destruct (json_loads (fn_arguments (tc_function tc))) as [arguments|];
    [|reflexivity].
  rewrite Hn. unfold bind. cbn [ret print].
  rewrite (globals_get_bound _ _ Hin). unfold run_tool. rewrite Ht.
  destruct g; try discriminate; destruct arguments; simpl; eauto.
Qed.

(** X8. Arguments that deserialize to anything but an object (a list, a
    string, a number, [null]) make the invocation of every bound tool raise
    [TypeError] after its announcement; nothing is called. *)
Theorem arguments_must_be_an_object (tc : tool_call) (g : gobj) (arguments : pyval)
    (w : world) :
  module_globals !! fn_name (tc_function tc) = Some g ->
  truthy g = true ->
  json_loads (fn_arguments (tc_function tc)) = Some arguments ->
  (forall kw, arguments <> VDict kw) ->
  invoke tc w
  = (Raise (TypeError "argument after ** must be a mapping"),
     log_print (announcement tc) w).
Proof.
  intros Hg Ht Hl Hd. unfold invoke, loads, announcement. rewrite Hl.
  unfold bind. cbn [ret print].
  rewrite (globals_get_bound _ _ Hg). unfold run_tool. rewrite Ht.
  destruct arguments; try reflexivity. now destruct (Hd items).
Qed.


(** X10. The class cannot serve as a tool: an invocation of [Me] always
    ends the tool-handling step with an exception, because the arguments do
    not fit the constructor, or the constructor raises, or the instance it
    yields is not JSON serializable. *)
Theorem class_is_no_tool (tc : tool_call) (w : world) :
  fn_name (tc_function tc) = "Me" ->
  exists e w', handle_one tc w = (Raise e, w').
Proof.
  intros Hn. unfold handle_one, invoke, loads. rewrite Hn.
  destruct (json_loads (fn_arguments (tc_function tc))) as [arguments|];
    [|unfold bind; simpl; eauto].
  unfold bind at 2 3. cbn [ret print].
  rewrite (globals_get_bound "Me" GClassMe)
    by (apply source_binding_wins; unfold source_bindings; set_solver).
  cbn [run_tool truthy].
  destruct arguments; try (unfold bind; simpl; eauto; fail).
  cbn [call]. destruct (accepts _ _ _); [|unfold bind; simpl; eauto].
  unfold bind, call_imported. destruct (imported _ _ _); simpl; eauto.
Qed.

End Dispatch.

(** ** Further properties: the loop *)

Section Loop.
Context {R : Runtime}.

(** Reaching round [k] uses up [k] units of fuel. *)
Lemma round_start_skip k : forall msgs w msgs_k w_k n,
  round_start k msgs w = Some (msgs_k, w_k) ->
  chat_loop (k + n) msgs w = chat_loop n msgs_k w_k.
Proof.
  induction k as [|k IH]; intros msgs w msgs_k w_k n Hs; simpl in Hs.
  - now inversion Hs.
  - change (S k + n) with (S (k + n)). rewrite chat_loop_S.
    destruct (chat_round msgs w) as [[[t|msgs']|e] w1]; try discriminate.
    now apply IH.
Qed.

(** X11. A response that announces tool calls but carries none is not an
    answer. When its list of invocations is missing, [chat] ends with
    [TypeError]; when the list is empty, [chat] appends the assistant's
    message alone and asks again. *)
Theorem empty_and_missing_tool_calls (msgs : list msg) (w : world) (c : choice)
    (others : list choice) (fuel : nat) :
  completions_create w (completion msgs) = ApiResponse (c :: others) ->
  finish_reason c = "tool_calls" ->
  (tool_calls (message c) = None ->
   chat_loop (S fuel) msgs w
   = Some (Raise (TypeError "'NoneType' object is not iterable"),
           log_request (completion msgs) w))
  /\ (tool_calls (message c) = Some [] ->
      chat_loop (S fuel) msgs w
      = chat_loop fuel (msgs ++ [MObject (message c)]) (log_request (completion msgs) w)).
Proof.
  intros Hc Hf. rewrite chat_loop_S, (chat_round_tools _ _ _ _ Hc Hf).
  split; intros ->; simpl; [reflexivity|]. now rewrite app_nil_r.
Qed.

(** X12. A failure of the completion API ends [chat] in whatever round it
    happens: when the call raises, [chat] ends with that exception, and
    when the response has no choice at all, with [IndexError]. What earlier
    rounds did stays done. *)
Theorem api_failure_ends_chat (k : nat) (msgs : list msg) (w : world)
    (msgs_k : list msg) (w_k : world) (fuel : nat) :
  round_start k msgs w = Some (msgs_k, w_k) ->
  (forall e,
      completions_create w_k (completion msgs_k) = ApiRaise e ->
      chat_loop (k + S fuel) msgs w
      = Some (Raise e, log_request (completion msgs_k) w_k))
  /\ (completions_create w_k (completion msgs_k) = ApiResponse [] ->
      chat_loop (k + S fuel) msgs w
      = Some (Raise IndexError, log_request (completion msgs_k) w_k)).
Proof.
  intros Hs. rewrite (round_start_skip _ _ _ _ _ _ Hs), chat_loop_S.
  unfold chat_round, create, bind. split.
  - intros e He. now rewrite He.
  - intros He. now rewrite He.
Qed.

(** X13. After any number of tool rounds, [chat] returns the text of the
    first response whose termination reason is not [tool_calls], and only
    that: what the assistant said in the rounds before is not part of the
    answer. Fuel beyond the rounds needed changes nothing. *)
Theorem chat_returns_the_last_text (k : nat) (msgs : list msg) (w : world)
    (msgs_k : list msg) (w_k : world) (c : choice) (others : list choice) (fuel : nat) :
  round_start k msgs w = Some (msgs_k, w_k) ->
  completions_create w_k (completion msgs_k) = ApiResponse (c :: others) ->
  finish_reason c <> "tool_calls" ->
  chat_loop (k + S fuel) msgs w
  = Some (Ret (content (message c)), log_request (completion msgs_k) w_k)
  /\ List.length (requests (log_request (completion msgs_k) w_k))
     = List.length (requests w) + S k.
Proof.
  intros Hs Hc Hf. split.
  - rewrite (round_start_skip _ _ _ _ _ _ Hs), chat_loop_S.
    now rewrite (chat_round_stop _ _ _ _ Hc Hf).
  - simpl. rewrite length_app. simpl.
    enough (List.length (requests w_k) = List.length (requests w) + k) by lia.
    clear Hc Hf. revert msgs w Hs.
    induction k as [|k IH]; intros msgs w Hs; simpl in Hs.
    + inversion Hs; subst. lia.
    + pose proof (chat_round_requests msgs w) as Hq.
      destruct (chat_round msgs w) as [[[t|msgs']|e] w1]; try discriminate.
      simpl in Hq. apply IH in Hs. rewrite Hs, Hq, length_app. simpl. lia.
Qed.

(** X14. Every completion request of a call names the model [gpt-4o-mini]
    and offers the list [tools]; a call that ends has issued at least one
    request and at most one per round. *)
Theorem every_request_offers_the_registry (fuel : nat) (msgs : list msg) (w : world)
    (out : outcome (option string)) (w' : world) :
  chat_loop fuel msgs w = Some (out, w') ->
  exists new,
    requests w' = requests w ++ new
    /\ 1 <= List.length new <= fuel
    /\ Forall (fun r => req_model r = "gpt-4o-mini" /\ req_tools r = tools) new.
Proof.
  revert msgs w. induction fuel as [|fuel IH]; intros msgs w H; [discriminate|].
  rewrite chat_loop_S in H. pose proof (chat_round_requests msgs w) as Hq.
  destruct (chat_round msgs w) as [[[t|msgs']|e] w1]; simpl in Hq.
  - inversion H; subst. exists [completion msgs].
    split; [exact Hq|]. split; [simpl; lia|]. now repeat constructor.
  - apply IH in H as (new & Hn & Hlen & Hall).
    exists (completion msgs :: new). split.
    + rewrite Hn, Hq, <- app_assoc. reflexivity.
    + split; [simpl; lia|]. constructor; [now split | exact Hall].
  - inversion H; subst. exists [completion msgs].
    split; [exact Hq|]. split; [simpl; lia|]. now repeat constructor.
Qed.

Lemma occurs_in_quoted n rest : occurs_in (dq +:+ n +:+ dq) (dq +:+ n +:+ dq +:+ rest).
Proof. exists EmptyString, rest. now rewrite !append_assoc. Qed.

(** X15. The registry, the prompt and the globals agree: the two tool
    names of [tools] are distinct, each is quoted in the prompt, and each
    is bound in the module's globals to a function of the module, so that
    the lookup by name finds a handler for every tool the model is offered. *)
Theorem registry_is_named_and_bound (self : Me) :
  NoDup registry_names
  /\ Forall (fun n =>
               occurs_in (dq +:+ n +:+ dq) (system_prompt self)
               /\ exists f, module_globals !! n = Some (GFunction f))
            registry_names.
Proof.
  change registry_names with ["record_user_details"; "record_unknown_question"].
  split.
  - apply (bool_decide_unpack _). vm_compute. exact I.
  - repeat constructor.
    + unfold system_prompt.
      repeat first [apply occurs_in_quoted | apply occurs_in_app_r].
    + exists Frecord_user_details.
      apply source_binding_wins. unfold source_bindings. set_solver.
    + unfold system_prompt.
      repeat first [apply occurs_in_quoted | apply occurs_in_app_r].
    + exists Frecord_unknown_question.
      apply source_binding_wins. unfold source_bindings. set_solver.
Qed.

End Loop.

(** ** The further properties on concrete runs *)

Lemma schema_decides_acceptance_witness :
  @call Demo.online (@globals_get Demo.online "record_user_details")
    (VDict [("name", VStr "Ann")]) Demo.w0
  = (Raise (TypeError "arguments do not match the signature"), Demo.w0)
  /\ @call Demo.online (@globals_get Demo.online "record_user_details")
       (VDict [("email", VStr "a@b.com"); ("phone", VStr "5")]) Demo.w0
     = (Raise (TypeError "arguments do not match the signature"), Demo.w0).
Proof.
  split.
  - refine (proj1 (@schema_decides_acceptance Demo.online
                     (VDict [("type", VStr "function");
                             ("function", record_user_details_json)])
                     "record_user_details" [("name", VStr "Ann")] Demo.w0 _ eq_refl)
              eq_refl).
    unfold tool_entries, tools. apply list_elem_of_here.
  - refine (proj1 (@schema_decides_acceptance Demo.online
                     (VDict [("type", VStr "function");
                             ("function", record_user_details_json)])
                     "record_user_details"
                     [("email", VStr "a@b.com"); ("phone", VStr "5")] Demo.w0 _ eq_refl)
              eq_refl).
    unfold tool_entries, tools. apply list_elem_of_here.
Defined.

Lemma registry_tools_report_ok_witness :
  let asked := [Demo.invocation "call_1" "record_user_details" Demo.args_email;
                Demo.invocation "call_2" "record_unknown_question" Demo.args_question] in
  let ok := "{" +:+ dq +:+ "recorded" +:+ dq +:+ ": " +:+ dq +:+ "ok" +:+ dq +:+ "}" in
  (@handle_tool_call Demo.two_tools (Some asked) Demo.w0).1
  = Ret [tool_message ok "call_1"; tool_message ok "call_2"]
  /\ exists texts,
       List.length texts = 2
       /\ outbox (@handle_tool_call Demo.two_tools (Some asked) Demo.w0).2
          = map (fun t => @push_request Demo.two_tools (VStr t)) texts.
Proof.
  intros asked ok.
  destruct (@handle_tool_call Demo.two_tools (Some asked) Demo.w0) as [o w'] eqn:Hr.
  assert (Ho : o = Ret [tool_message ok "call_1"; tool_message ok "call_2"]).
  { vm_compute in Hr. inversion Hr. reflexivity. }
  subst o. split; [reflexivity|].
  assert (Hreg : Forall (fun tc => in_registry (fn_name (tc_function tc)) = true) asked)
    by repeat constructor.
  exact (proj1 (proj2 (@registry_tools_report_ok Demo.two_tools asked Demo.w0 _ w'
                         Hreg Hr))).
Defined.

Lemma announcements_follow_invocations_witness :
  let first := Demo.invocation "call_1" "record_user_details" Demo.args_email in
  let broken := Demo.invocation "call_2" "nosuch" Demo.args_broken in
  let module := Demo.invocation "call_2" "json" Demo.args_empty in
  let last := Demo.invocation "call_3" "record_unknown_question" Demo.args_question in
  ((@handle_tool_call Demo.two_tools (Some [first; broken; last]) Demo.w0).1
   = Raise JSONDecodeError
   /\ stdout (@handle_tool_call Demo.two_tools (Some [first; broken; last]) Demo.w0).2
      = ["Tool called: record_user_details"])
  /\ ((@handle_tool_call Demo.two_tools (Some [first; module; last]) Demo.w0).1
      = Raise (TypeError "'module' object is not callable")
      /\ stdout (@handle_tool_call Demo.two_tools (Some [first; module; last]) Demo.w0).2
         = ["Tool called: record_user_details"; "Tool called: json"]).
Proof.
  intros first broken module last.
  assert (Hh : exists ms w1, @handled Demo.two_tools Demo.w0 [first] ms w1
                             /\ stdout w1 = ["Tool called: record_user_details"]).
  { eexists _, _. split.
    - eapply (@handled_cons Demo.two_tools _ first (VDict [("recorded", VStr "ok")]));
        [vm_compute; reflexivity | reflexivity | constructor].
    - reflexivity. }
  destruct Hh as (ms & w1 & Hh & Hstd).
  split.
  - destruct (@handle_tool_call Demo.two_tools (Some [first; broken; last]) Demo.w0)
      as [o w'] eqn:Hr.
    destruct (proj2 (@announcements_follow_invocations Demo.two_tools
                       [first; broken; last] Demo.w0 o w' Hr)
                [first] broken [last] ms w1 JSONDecodeError w1 eq_refl Hh eq_refl)
      as (-> & -> & Hout).
    split; [reflexivity | exact Hout].
  - destruct (@handle_tool_call Demo.two_tools (Some [first; module; last]) Demo.w0)
      as [o w'] eqn:Hr.
    destruct (proj2 (@announcements_follow_invocations Demo.two_tools
                       [first; module; last] Demo.w0 o w' Hr)
                [first] module [last] ms w1
                (TypeError "'module' object is not callable")
                (log_print "Tool called: json" w1) eq_refl Hh eq_refl)
      as (-> & -> & Hout).
    split; [reflexivity | exact Hout].
Defined.

Lemma data_and_modules_are_not_callable_witness :
  (exists what,
      @invoke Demo.online (Demo.invocation "call_1" "tools" Demo.args_empty) Demo.w0
      = (Raise (TypeError what), log_print "Tool called: tools" Demo.w0))
  /\ @invoke Demo.online (Demo.invocation "call_2" "tools" Demo.args_broken) Demo.w0
     = (Raise JSONDecodeError, Demo.w0).
Proof.
  assert (Hin : ("tools", GValue tools)
                ∈ source_bindings
                  ++ (if @is_main Demo.online then main_bindings else [])).
  { apply elem_of_app. left. unfold source_bindings.
    do 13 apply list_elem_of_further. apply list_elem_of_here. }
  split.
  - exact (proj1 (@data_and_modules_are_not_callable Demo.online
                    (Demo.invocation "call_1" "tools" Demo.args_empty)
                    "tools" (GValue tools) Demo.w0 Hin eq_refl eq_refl)).
  - exact (proj1 (@data_and_modules_are_not_callable Demo.online
                    (Demo.invocation "call_2" "tools" Demo.args_broken)
                    "tools" (GValue tools) Demo.w0 Hin eq_refl eq_refl)).
Defined.

Lemma arguments_must_be_an_object_witness :
  @invoke Demo.loose (Demo.invocation "call_1" "record_unknown_question" "[]") Demo.w0
  = (Raise (TypeError "argument after ** must be a mapping"),
     log_print "Tool called: record_unknown_question" Demo.w0).
Proof.
  apply (@arguments_must_be_an_object Demo.loose
           (Demo.invocation "call_1" "record_unknown_question" "[]")
           (GFunction Frecord_unknown_question) (VList [])).
  - vm_compute. reflexivity.
  - reflexivity.
  - reflexivity.
  - intros kw. discriminate.
Defined.


Lemma class_is_no_tool_witness :
  exists e w',
    @handle_one Demo.online (Demo.invocation "call_1" "Me" Demo.args_empty) Demo.w0
    = (Raise e, w').
Proof.
  apply (@class_is_no_tool Demo.online (Demo.invocation "call_1" "Me" Demo.args_empty)).
  reflexivity.
Defined.

Lemma empty_and_missing_tool_calls_witness :
  @chat_loop (Demo.scripted [Demo.announces None] (Demo.says "done") Demo.delivered)
    1 [user_message "hello"] Demo.w0
  = Some (Raise (TypeError "'NoneType' object is not iterable"),
          log_request (completion [user_message "hello"]) Demo.w0)
  /\ @chat_loop (Demo.scripted [Demo.announces (Some [])] (Demo.says "done") Demo.delivered)
       2 [user_message "hello"] Demo.w0
     = @chat_loop (Demo.scripted [Demo.announces (Some [])] (Demo.says "done")
                     Demo.delivered)
         1 ([user_message "hello"] ++ [MObject {| content := None; tool_calls := Some [] |}])
         (log_request (completion [user_message "hello"]) Demo.w0).
Proof.
  split.
  - exact (proj1 (@empty_and_missing_tool_calls
                    (Demo.scripted [Demo.announces None] (Demo.says "done") Demo.delivered)
                    [user_message "hello"] Demo.w0
                    {| finish_reason := "tool_calls";
                       message := {| content := None; tool_calls := None |} |}
                    [] 0 eq_refl eq_refl) eq_refl).
  - exact (proj2 (@empty_and_missing_tool_calls
                    (Demo.scripted [Demo.announces (Some [])] (Demo.says "done")
                       Demo.delivered)
                    [user_message "hello"] Demo.w0
                    {| finish_reason := "tool_calls";
                       message := {| content := None; tool_calls := Some [] |} |}
                    [] 1 eq_refl eq_refl) eq_refl).
Defined.

Lemma api_failure_ends_chat_witness :
  @chat_loop (Demo.scripted [ApiRaise (External "APIConnectionError")] (Demo.says "done")
                Demo.delivered)
    3 [user_message "hello"] Demo.w0
  = Some (Raise (External "APIConnectionError"),
          log_request (completion [user_message "hello"]) Demo.w0).
Proof.
  exact (proj1 (@api_failure_ends_chat
                  (Demo.scripted [ApiRaise (External "APIConnectionError")]
                     (Demo.says "done") Demo.delivered)
                  0 [user_message "hello"] Demo.w0 [user_message "hello"] Demo.w0 2
                  eq_refl) (External "APIConnectionError") eq_refl).
Defined.

Lemma chat_returns_the_last_text_witness :
  fst <$> @chat_loop Demo.two_tools 2 [user_message "hello"] Demo.w0
  = Some (Ret (Some "done")).
Proof.
  destruct (@round_start Demo.two_tools 1 [user_message "hello"] Demo.w0)
    as [[msgs_1 w_1]|] eqn:Hs; [|vm_compute in Hs; discriminate].
  assert (Hc : @completions_create Demo.two_tools w_1 (completion msgs_1) = Demo.says "done").
  { vm_compute in Hs. inversion Hs; subst. reflexivity. }
  destruct (@chat_returns_the_last_text Demo.two_tools 1 [user_message "hello"] Demo.w0
              msgs_1 w_1 _ [] 0 Hs Hc) as (H & _).
  - discriminate.
  - change (1 + 1) with 2 in H. rewrite H. reflexivity.
Defined.

Lemma every_request_offers_the_registry_witness :
  exists new,
    requests (log_request (completion [user_message "hello"]) Demo.w0)
    = requests Demo.w0 ++ new
    /\ 1 <= List.length new <= 1
    /\ Forall (fun r => req_model r = "gpt-4o-mini" /\ req_tools r = tools) new.
Proof.
  apply (@every_request_offers_the_registry Demo.online 1 [user_message "hello"] Demo.w0
           (Ret (Some "done"))).
  reflexivity.
Defined.
